(** * go-postmangen: the Register pipeline and the path tree

    A shallow embedding of [postmangen.go]: [walkStructFields],
    [AddVariable], [AddPlaceholder], [Register] and [TypeZeroValue], together
    with the fragment of Go's [strings], [reflect], [fmt] and
    [encoding/json] packages those functions call.

    Conventions.
    - A Go [map[string]T] is a [gmap string T].
    - A Go [*T] that is never shared is the value it points to; a pointer
      that may be [nil] is an [option].
    - [reflect.Type] is a descriptor [Type_]. Containment by value (array
      elements, struct fields) is inline; the element of a pointer, slice or
      map is a [TypeId] resolved in the table of declared types, so that
      types which refer to themselves through a pointer or a slice can be
      written down. Functions that follow such references take [fuel];
      [None] means that the recursion did not come back.
    - Types carry no method set: [String], [Error], [MarshalJSON] and
      [MarshalText] methods are outside the model. *)

From Stdlib Require Import Ascii.
From stdpp Require Import base option list sorting gmap strings.

#[local] Set Warnings "-register-all".

(** ** Strings *)

(** The byte 0x22. *)
Definition dquote : string := String (Ascii.ascii_of_nat 34) EmptyString.

Definition isEmpty (s : string) : bool :=
  match s with EmptyString => true | String _ _ => false end.

(** Package [strings], for the one-byte separators and cut sets of the source. *)
Module strings.

Fixpoint Split (s : string) (sep : ascii) : list string :=
  match s with
  | EmptyString => [EmptyString]
  | String c r =>
      if Ascii.eqb c sep then EmptyString :: Split r sep
      else match Split r sep with
           | h :: t => String c h :: t
           | [] => [String c EmptyString]
           end
  end.

Fixpoint TrimLeft (s : string) (cut : ascii) : string :=
  match s with
  | EmptyString => EmptyString
  | String c r => if Ascii.eqb c cut then TrimLeft r cut else s
  end.

Fixpoint TrimRight (s : string) (cut : ascii) : string :=
  match s with
  | EmptyString => EmptyString
  | String c r =>
      let r' := TrimRight r cut in
      if Ascii.eqb c cut && isEmpty r' then EmptyString else String c r'
  end.

Definition Trim (s : string) (cut : ascii) : string :=
  TrimRight (TrimLeft s cut) cut.

Fixpoint HasPrefix (s prefix : string) {struct prefix} : bool :=
  match prefix, s with
  | EmptyString, _ => true
  | String a p, String b r => Ascii.eqb a b && HasPrefix r p
  | String _ _, EmptyString => false
  end.

Definition TrimPrefix (s prefix : string) : string :=
  if HasPrefix s prefix
  then String.substring (String.length prefix)
                        (String.length s - String.length prefix) s
  else s.

Definition Join (elems : list string) (sep : string) : string :=
  String.concat sep elems.

End strings.

(** ** Package [reflect] *)

Module reflect.

Definition TypeId := nat.

(** A struct tag in the conventional [key:"value"] form, as its pairs. *)
Definition StructTag := list (string * string).

Inductive Type_ : Type :=
| Bool | Int | Float | Complex | String_ | UnsafePointer
| Chan | Func | Interface
| Map (key elem : TypeId)
| Ptr (elem : TypeId)
| Slice (elem : TypeId)
| Array (len : nat) (elem : Type_)
| Struct (fields : list StructField)
with StructField : Type :=
| mkStructField (Name PkgPath : string) (Type' : Type_) (Tag : StructTag)
                (Anonymous : bool).

Definition Name (f : StructField) : string :=
  match f with mkStructField n _ _ _ _ => n end.
Definition PkgPath (f : StructField) : string :=
  match f with mkStructField _ p _ _ _ => p end.
Definition Type' (f : StructField) : Type_ :=
  match f with mkStructField _ _ t _ _ => t end.
Definition Tag (f : StructField) : StructTag :=
  match f with mkStructField _ _ _ t _ => t end.
Definition Anonymous (f : StructField) : bool :=
  match f with mkStructField _ _ _ _ a => a end.

(** [StructTag.Get]: the value of the first pair with that key, or the
    empty string. *)
Fixpoint Get (tag : StructTag) (key : string) : string :=
  match tag with
  | [] => EmptyString
  | (k, v) :: rest => if String.eqb k key then v else Get rest key
  end.

Inductive Kind : Set :=
| KBool | KInt | KFloat | KComplex | KString | KUnsafePointer
| KChan | KFunc | KInterface | KMap | KPtr | KSlice | KArray | KStruct.

Definition Kind_eqb (a b : Kind) : bool :=
  match a, b with
  | KBool, KBool | KInt, KInt | KFloat, KFloat | KComplex, KComplex
  | KString, KString | KUnsafePointer, KUnsafePointer | KChan, KChan
  | KFunc, KFunc | KInterface, KInterface | KMap, KMap | KPtr, KPtr
  | KSlice, KSlice | KArray, KArray | KStruct, KStruct => true
  | _, _ => false
  end.

Definition Kind_of (t : Type_) : Kind :=
  match t with
  | Bool => KBool | Int => KInt | Float => KFloat | Complex => KComplex
  | String_ => KString | UnsafePointer => KUnsafePointer | Chan => KChan
  | Func => KFunc | Interface => KInterface | Map _ _ => KMap
  | Ptr _ => KPtr | Slice _ => KSlice | Array _ _ => KArray
  | Struct _ => KStruct
  end.

(** The declared types of the program, by identifier. *)
Definition TypeTable := TypeId -> Type_.

(** [Type.Elem] on the kinds the source calls it on. *)
Definition Elem (rt : TypeTable) (t : Type_) : Type_ :=
  match t with
  | Ptr e | Slice e | Map _ e => rt e
  | Array _ e => e
  | _ => t
  end.

Definition fieldsOf (t : Type_) : list StructField :=
  match t with Struct fs => fs | _ => [] end.

End reflect.

(** ** Dynamic values

    What the source stores in an [any]: a Go string, the zero value of a
    type as [reflect.Zero(t).Interface()] yields it, a [[]any] literal, or
    [nil]. *)
Inductive Value : Type :=
| VString (s : string)
| VZero (t : reflect.Type_)
| VSlice (elems : list Value)
| VNil.

(** ** Package [fmt]: [Sprint] of one operand, with the verb [%v] *)

Module fmt.
Import reflect.

Fixpoint sprintZero (t : Type_) : string :=
  match t with
  | Bool => "false"
  | Int | Float => "0"
  | Complex => "(0+0i)"
  | String_ => EmptyString
  | UnsafePointer | Chan | Func | Interface | Ptr _ => "<nil>"
  | Map _ _ => "map[]"
  | Slice _ => "[]"
  | Array n e => "[" +:+ strings.Join (replicate n (sprintZero e)) " " +:+ "]"
  | Struct fs =>
      "{" +:+
      strings.Join
        ((fix fields (l : list StructField) : list string :=
            match l with
            | [] => []
            | mkStructField _ _ ty _ _ :: r => sprintZero ty :: fields r
            end) fs) " "
      +:+ "}"
  end.

Fixpoint Sprint (v : Value) : string :=
  match v with
  | VString s => s
  | VZero t => sprintZero t
  | VSlice xs => "[" +:+ strings.Join (List.map Sprint xs) " " +:+ "]"
  | VNil => "<nil>"
  end.

End fmt.

(** ** Package [encoding/json]

    [Marshal] on the values above, and [Indent] as the byte scanner of the
    library. [None] is the library's [UnsupportedTypeError]. Struct fields
    are encoded under the name of their [json] tag with the options
    [omitempty] and [string]; embedded structs are flattened; the names that
    result are taken to be distinct and valid. *)

Module json.
Import reflect.

Definition hexDigit (n : nat) : string :=
  String.substring n 1 "0123456789abcdef".

Definition escapeByte (c : ascii) : string :=
  let n := Ascii.nat_of_ascii c in
  if (n =? 34) || (n =? 92) then "\" +:+ String c EmptyString
  else if (n =? 8) then "\b"
  else if (n =? 12) then "\f"
  else if (n =? 10) then "\n"
  else if (n =? 13) then "\r"
  else if (n =? 9) then "\t"
  else if (n <? 32) || (n =? 60) || (n =? 62) || (n =? 38)
       then "\u00" +:+ hexDigit (n / 16) +:+ hexDigit (n mod 16)
  else String c EmptyString.

Fixpoint escape (s : string) : string :=
  match s with
  | EmptyString => EmptyString
  | String c r => escapeByte c +:+ escape r
  end.

Definition quote (s : string) : string := dquote +:+ escape s +:+ dquote.

(** [parseTag]: the name before the first comma, and the options after it. *)
Definition parseTag (tag : string) : string * list string :=
  match strings.Split tag ","%char with
  | name :: opts => (name, opts)
  | [] => (tag, [])
  end.

Definition hasOpt (opts : list string) (o : string) : bool :=
  existsb (String.eqb o) opts.

Definition mapKeyOk (k : Kind) : bool :=
  match k with KString | KInt => true | _ => false end.

(** [isEmptyValue] at the zero value of a type. *)
Definition isEmptyZero (t : Type_) : bool :=
  match t with
  | Bool | Int | Float | String_ | Interface | Ptr _ | Map _ _ | Slice _ => true
  | Array n _ => (n =? 0)
  | _ => false
  end.

Definition quotable (t : Type_) : bool :=
  match t with Bool | Int | Float | String_ => true | _ => false end.

(** The encoding of the zero value of a type: its text and, for a struct
    type, the [name:value] members the text is made of (an embedded struct
    hands them to the struct around it). *)
Fixpoint encodeZero (rt : TypeTable) (t : Type_)
  : option (list string * string) :=
  match t with
  | Bool => Some ([], "false")
  | Int | Float => Some ([], "0")
  | String_ => Some ([], quote EmptyString)
  | Complex | UnsafePointer | Chan | Func => None
  | Interface | Ptr _ | Slice _ => Some ([], "null")
  | Map k _ => if mapKeyOk (Kind_of (rt k)) then Some ([], "null") else None
  | Array n e =>
      match n with
      | O => Some ([], "[]")
      | S _ => s ← encodeZero rt e;
               Some ([], "[" +:+ strings.Join (replicate n s.2) "," +:+ "]")
      end
  | Struct fs =>
      ms ← (fix members (l : list StructField) : option (list string) :=
         match l with
         | [] => Some []
         | mkStructField name pkg ty tag anon :: r =>
             let exported := isEmpty pkg in
             let jtag := Get tag "json" in
             let '(jname, opts) := parseTag jtag in
             let embedded :=
               match ty with
               | Struct _ => true
               | Ptr e => Kind_eqb (Kind_of (rt e)) KStruct
               | _ => false
               end in
             if (if anon then negb exported && negb embedded
                 else negb exported) then members r
             else if String.eqb jtag "-" then members r
             else if isEmpty jname && anon && embedded then
               match ty with
               | Struct _ =>
                   inner ← encodeZero rt ty; rest ← members r;
                   Some (inner.1 ++ rest)
               | _ => members r
               end
             else if hasOpt opts "omitempty" && isEmptyZero ty
             then members r
             else
               v ← encodeZero rt ty;
               rest ← members r;
               let v' := if hasOpt opts "string" && quotable ty
                         then quote v.2 else v.2 in
               Some ((quote (if isEmpty jname then name else jname)
                        +:+ ":" +:+ v') :: rest)
         end) fs;
      Some (ms, "{" +:+ strings.Join ms "," +:+ "}")
  end.

Definition marshalZero (rt : TypeTable) (t : Type_) : option string :=
  snd <$> encodeZero rt t.

Fixpoint Marshal (rt : TypeTable) (v : Value) : option string :=
  match v with
  | VString s => Some (quote s)
  | VZero t => marshalZero rt t
  | VSlice xs =>
      es ← (fix elems (l : list Value) : option (list string) :=
              match l with
              | [] => Some []
              | x :: r => e ← Marshal rt x; rest ← elems r; Some (e :: rest)
              end) xs;
      Some ("[" +:+ strings.Join es "," +:+ "]")
  | VNil => Some "null"
  end.

(** A [map[string]any]: the entries in the order of their keys. *)
Definition keyLe (a b : string * Value) : Prop := String.leb a.1 b.1 = true.

#[local] Instance keyLe_dec a b : Decision (keyLe a b).
Proof. unfold keyLe. apply _. Defined.

Definition sortedEntries (m : gmap string Value) : list (string * Value) :=
  merge_sort keyLe (map_to_list m).

Fixpoint marshalEntries (rt : TypeTable) (l : list (string * Value))
  : option (list string) :=
  match l with
  | [] => Some []
  | (k, v) :: r =>
      e ← Marshal rt v; rest ← marshalEntries rt r;
      Some ((quote k +:+ ":" +:+ e) :: rest)
  end.

Definition MarshalMap (rt : TypeTable) (m : gmap string Value)
  : option string :=
  es ← marshalEntries rt (sortedEntries m);
  Some ("{" +:+ strings.Join es "," +:+ "}").

Definition newline (prefix indent : string) (depth : nat) : string :=
  String "010" (prefix +:+ strings.Join (replicate depth indent) EmptyString).

Definition isSpace (c : ascii) : bool :=
  match c with " " | "009" | "010" | "013" => true | _ => false end%char.

(** [Indent]: the loop of the library over the bytes of a JSON text.
    [inStr] and [esc] stand for the scanner state (inside a string
    literal, after a backslash). *)
Fixpoint appendIndent (src prefix indent : string) (needIndent : bool)
    (depth : nat) (inStr esc : bool) : string :=
  match src with
  | EmptyString => EmptyString
  | String c r =>
      let one := String c EmptyString in
      if inStr then
        one +:+ appendIndent r prefix indent needIndent depth
                  (negb (Ascii.eqb c "034" && negb esc))
                  (negb esc && Ascii.eqb c "\")
      else if isSpace c then
        appendIndent r prefix indent needIndent depth false false
      else
        let closing := Ascii.eqb c "}" || Ascii.eqb c "]" in
        let enter := needIndent && negb closing in
        let depth1 := if enter then S depth else depth in
        let pre := if enter then newline prefix indent depth1
                   else EmptyString in
        let need1 := needIndent && closing in
        if Ascii.eqb c "{" || Ascii.eqb c "[" then
          pre +:+ one +:+ appendIndent r prefix indent true depth1 false false
        else if Ascii.eqb c "," then
          pre +:+ one +:+ newline prefix indent depth1
              +:+ appendIndent r prefix indent false depth1 false false
        else if Ascii.eqb c ":" then
          pre +:+ one +:+ " "
              +:+ appendIndent r prefix indent need1 depth1 false false
        else if closing then
          if need1 then
            one +:+ appendIndent r prefix indent false depth1 false false
          else
            newline prefix indent (depth1 - 1) +:+ one
              +:+ appendIndent r prefix indent false (depth1 - 1) false false
        else
          pre +:+ one +:+ appendIndent r prefix indent need1 depth1
                            (Ascii.eqb c "034") false
  end%char.

Definition Indent (src prefix indent : string) : string :=
  appendIndent src prefix indent false 0 false false.

Definition MarshalIndent (rt : TypeTable) (m : gmap string Value)
    (prefix indent : string) : option string :=
  b ← MarshalMap rt m; Some (Indent b prefix indent).

End json.

(** ** Package [postman] (github.com/rbretecher/go-postman-collection)

    The structures [Register] fills, with the fields it sets. *)

Module postman.

Record Variable' : Type := mkVariable {
  Variable_Key : string;
  Variable_Type : string;
  Variable_Value : string;
  Variable_Description : string }.

Record QueryParam : Type := mkQueryParam {
  QueryParam_Key : string;
  QueryParam_Value : string;
  QueryParam_Description : option string }.

Record Header : Type := mkHeader {
  Header_Key : string;
  Header_Value : string }.

(** The type [FormParam] that [Register] declares for [Body.FormData]. *)
Record FormParam : Type := mkFormParam {
  FormParam_Key : string;
  FormParam_Value : string;
  FormParam_Type : string;
  FormParam_Description : string }.

Record BodyOptions : Type := mkBodyOptions {
  BodyOptions_Raw_Language : string }.

Record Body : Type := mkBody {
  Body_Mode : string;
  Body_Raw : string;
  Body_FormData : option (list FormParam);
  Body_Options : option BodyOptions }.

Record URL : Type := mkURL {
  URL_Raw : string;
  URL_Host : list string;
  URL_Path : list string;
  URL_Query : list QueryParam;
  URL_Variables : list Variable' }.

Record Request : Type := mkRequest {
  Request_URL : URL;
  Request_Method : string;
  Request_Header : list Header;
  Request_Body : Body }.

(** A folder or a request of the collection: a folder has no [Request]. *)
Inductive Items : Type :=
| mkItems (Name : string) (Children : list Items) (Req : option Request).

Definition Items_Name (i : Items) : string :=
  match i with mkItems n _ _ => n end.
Definition Items_Items (i : Items) : list Items :=
  match i with mkItems _ c _ => c end.
Definition Items_Request (i : Items) : option Request :=
  match i with mkItems _ _ r => r end.

Record AuthParam : Type := mkAuthParam {
  AuthParam_Key : string;
  AuthParam_Value : string;
  AuthParam_Type : string }.

Record Auth : Type := mkAuth {
  Auth_Type : string;
  Auth_Params : list AuthParam }.

Record Collection : Type := mkCollection {
  Info_Name : string;
  Info_Description : string;
  Collection_Auth : option Auth;
  Collection_Items : list Items;
  Collection_Variables : list Variable' }.

Definition CreateCollection (name desc : string) : Collection :=
  mkCollection name desc None [] [].

Definition CreateAuth (a : string) (params : list AuthParam) : Auth :=
  mkAuth a params.

(** [CreateItem]: a node with the name and the request, and no children. *)
Definition CreateItem (name : string) (request : Request) : Items :=
  mkItems name [] (Some request).

End postman.

(** ** postmangen *)

Import reflect postman.

Record PostmanGen : Type := mkPostmanGen {
  collection : Collection;
  placeholderDefaults : gmap string string }.

Definition NewPostmanGen (name description : string) : PostmanGen :=
  let c := CreateCollection name description in
  mkPostmanGen
    (mkCollection (Info_Name c) (Info_Description c)
       (Some (CreateAuth "bearer" [mkAuthParam "token" "{{token}}" "string"]))
       (Collection_Items c) (Collection_Variables c))
    ∅.

Definition setItems (p : PostmanGen) (items : list Items) : PostmanGen :=
  let c := collection p in
  mkPostmanGen
    (mkCollection (Info_Name c) (Info_Description c) (Collection_Auth c)
       items (Collection_Variables c))
    (placeholderDefaults p).

Definition AddVariable (p : PostmanGen) (key value : string) : PostmanGen :=
  let c := collection p in
  mkPostmanGen
    (mkCollection (Info_Name c) (Info_Description c) (Collection_Auth c)
       (Collection_Items c)
       (Collection_Variables c ++ [mkVariable key "string" value EmptyString]))
    (placeholderDefaults p).

Definition AddPlaceholder (p : PostmanGen) (key value : string) : PostmanGen :=
  mkPostmanGen (collection p) (<[key := value]> (placeholderDefaults p)).

(** [walkStructFields]. The callback [fn] threads the state [S] that the
    closure of the source keeps in its captured variables. *)
Fixpoint walkFields {S : Type} (walk : Type_ -> S -> option S)
    (rt : TypeTable) (fn : StructField -> S -> option S)
    (fs : list StructField) (s : S) : option S :=
  match fs with
  | [] => Some s
  | f :: rest =>
      if negb (isEmpty (PkgPath f)) then walkFields walk rt fn rest s
      else
        let ft := if Kind_eqb (Kind_of (Type' f)) KPtr
                  then Elem rt (Type' f) else Type' f in
        if Anonymous f && Kind_eqb (Kind_of ft) KStruct then
          s' ← walk ft s; walkFields walk rt fn rest s'
        else
          s' ← fn f s; walkFields walk rt fn rest s'
  end.

Fixpoint walkStructFields {S : Type} (fuel : nat) (rt : TypeTable)
    (t : Type_) (fn : StructField -> S -> option S) (s : S) : option S :=
  match fuel with
  | O => None
  | S fuel' =>
      let t := if Kind_eqb (Kind_of t) KPtr then Elem rt t else t in
      if negb (Kind_eqb (Kind_of t) KStruct) then Some s
      else walkFields (fun ft s' => walkStructFields fuel' rt ft fn s')
             rt fn (fieldsOf t) s
  end.

(** [TypeZeroValue]. *)
Fixpoint TypeZeroValue (fuel : nat) (rt : TypeTable) (t : Type_)
    (preferString : bool) : option Value :=
  match fuel with
  | O => None
  | S fuel' =>
      if Kind_eqb (Kind_of t) KPtr then
        TypeZeroValue fuel' rt (Elem rt t) preferString
      else if Kind_eqb (Kind_of t) KStruct && preferString then
        match json.Marshal rt (VZero t) with
        | None => Some VNil
        | Some jsonBytes => Some (VString jsonBytes)
        end
      else if Kind_eqb (Kind_of t) KSlice then
        v ← TypeZeroValue fuel' rt (Elem rt t) preferString;
        Some (VSlice [v])
      else Some (VZero t)
  end.

(** *** [Register] *)

(** What a spec map holds under a key. *)
Inductive any : Type :=
| any_string (s : string)
| any_Type (t : Type_)
| any_int (n : Z)
| any_nil.

Inductive error : Type :=
| errors_New (msg : string)
| fmt_Errorf (msg : string).

(** The test [s == "" || s == "-"] of the source. *)
Definition unset (s : string) : bool :=
  String.eqb s EmptyString || String.eqb s "-".

(** The key of a role: the tag, or the field name when the tag is unset. *)
Definition keyOf (field : StructField) (role : string) : string :=
  let tag := Get (Tag field) role in
  if unset tag then Name field else tag.

(** [placeholderValue] as lines 144 to 157 leave it. *)
Definition placeholderOf (defaults : gmap string string)
    (field : StructField) : string :=
  let example := Get (Tag field) "example" in
  if unset example then
    match defaults !! keyOf field "json" with
    | Some defaultValue => defaultValue
    | None =>
    match defaults !! keyOf field "form" with
    | Some defaultValue => defaultValue
    | None =>
    match defaults !! keyOf field "formFile" with
    | Some defaultValue => defaultValue
    | None =>
    match defaults !! keyOf field "query" with
    | Some defaultValue => defaultValue
    | None =>
    match defaults !! keyOf field "param" with
    | Some defaultValue => defaultValue
    | None => example
    end end end end end
  else example.

(** The four collections the callback of [Register] appends to. *)
Record params : Type := mkParams {
  jsonParams : gmap string Value;
  formParams : list FormParam;
  queryParams : list QueryParam;
  pathVariables : list Variable' }.

Definition noParams : params := mkParams ∅ [] [] [].

(** The value stored under the JSON key (lines 159 to 165). *)
Definition jsonValue (fuel : nat) (rt : TypeTable) (field : StructField)
    (placeholderValue : string) : option Value :=
  if unset placeholderValue
  then TypeZeroValue fuel rt (Type' field) false
  else Some (VString placeholderValue).

(** [placeholderValue] after lines 167 to 169. *)
Definition slotValue (fuel : nat) (rt : TypeTable) (field : StructField)
    (placeholderValue : string) : option Value :=
  if unset placeholderValue
  then TypeZeroValue fuel rt (Type' field) true
  else Some (VString placeholderValue).

(** The callback handed to [walkStructFields] (lines 113 to 204). *)
Definition registerField (fuel : nat) (rt : TypeTable)
    (defaults : gmap string string) (field : StructField) (acc : params)
    : option params :=
  let jsonTag := Get (Tag field) "json" in
  let formTag := Get (Tag field) "form" in
  let formFileTag := Get (Tag field) "formFile" in
  let queryTag := Get (Tag field) "query" in
  let paramTag := Get (Tag field) "param" in
  let description := Get (Tag field) "description" in
  let placeholderValue := placeholderOf defaults field in
  jsonParams' ←
    (if negb (unset jsonTag) then
       value ← jsonValue fuel rt field placeholderValue;
       Some (<[keyOf field "json" := value]> (jsonParams acc))
     else Some (jsonParams acc));
  placeholderValue' ← slotValue fuel rt field placeholderValue;
  let formParams1 :=
    if negb (unset formTag) then
      formParams acc ++
        [mkFormParam (keyOf field "form") (fmt.Sprint placeholderValue')
           "text" description]
    else formParams acc in
  let formParams2 :=
    if negb (unset formFileTag) then
      formParams1 ++
        [mkFormParam (keyOf field "formFile") (fmt.Sprint placeholderValue')
           "file" description]
    else formParams1 in
  let queryParams' :=
    if negb (unset queryTag) then
      queryParams acc ++
        [mkQueryParam (keyOf field "query") (fmt.Sprint placeholderValue')
           (Some description)]
    else queryParams acc in
  let pathVariables' :=
    if negb (unset paramTag) then
      pathVariables acc ++
        [mkVariable (keyOf field "param") "string"
           (fmt.Sprint placeholderValue') EmptyString]
    else pathVariables acc in
  Some (mkParams jsonParams' formParams2 queryParams' pathVariables').

(** The URL variable of a [:key] segment (lines 216 to 231): the first
    candidate with that key gives the value and the description. *)
Definition urlVariable (pathVariables : list Variable') (key : string)
    : Variable' :=
  match List.find (fun pv => String.eqb (Variable_Key pv) key) pathVariables with
  | Some pv =>
      mkVariable key "string" (Variable_Value pv) (Variable_Description pv)
  | None => mkVariable key "string" (":" +:+ key) EmptyString
  end.

(** The loop over the path segments (lines 210 to 233): the segments as it
    leaves them, and the URL variables it appends. *)
Fixpoint processSegments (pathVariables : list Variable')
    (pathSegments : list string) : list string * list Variable' :=
  match pathSegments with
  | [] => ([], [])
  | segment :: rest =>
      let '(segments, urlVariables) := processSegments pathVariables rest in
      if strings.HasPrefix segment ":" then
        let key := strings.TrimPrefix segment ":" in
        ((":" +:+ key) :: segments,
         urlVariable pathVariables key :: urlVariables)
      else (segment :: segments, urlVariables)
  end.

(** The request before its body is chosen (lines 206 to 247). *)
Definition buildRequest (method path : string) (acc : params) : Request :=
  let '(pathSegments, urlVariables) :=
    processSegments (pathVariables acc)
      (strings.Split (strings.Trim path "/") "/") in
  let processedPath := "/" +:+ strings.Join pathSegments "/" in
  mkRequest
    (mkURL ("{{base_url}}" +:+ processedPath) ["{{base_url}}"]
       pathSegments (queryParams acc) urlVariables)
    method [] (mkBody EmptyString EmptyString None None).

(** The choice of the body (lines 249 to 264). *)
Definition withBody (rt : TypeTable) (acc : params) (request : Request)
    : error + Request :=
  if negb (length (formParams acc) =? 0) then
    inr (mkRequest (Request_URL request) (Request_Method request)
           (Request_Header request ++
              [mkHeader "Content-Type" "multipart/form-data"])
           (mkBody "formdata" (Body_Raw (Request_Body request))
              (Some (formParams acc)) (Body_Options (Request_Body request))))
  else if negb (size (jsonParams acc) =? 0) then
    match json.MarshalIndent rt (jsonParams acc) EmptyString "  " with
    | None => inl (fmt_Errorf "failed to marshal json body: %w")
    | Some bodyBytes =>
        inr (mkRequest (Request_URL request) (Request_Method request)
               (Request_Header request ++
                  [mkHeader "Content-Type" "application/json"])
               (mkBody "raw" bodyBytes (Body_FormData (Request_Body request))
                  (Some (mkBodyOptions "json"))))
    end
  else inr request.

(** A folder matches a segment when it has that name and no request
    (line 279). *)
Definition isFolder (segment : string) (existingItem : Items) : bool :=
  String.eqb (Items_Name existingItem) segment
  && match Items_Request existingItem with None => true | Some _ => false end.

(** The search loop of lines 278 to 283: the index of the first match. *)
Fixpoint findFolder (segment : string) (items : list Items) : option nat :=
  match items with
  | [] => None
  | existingItem :: rest =>
      if isFolder segment existingItem then Some 0
      else S <$> findFolder segment rest
  end.

Definition setChildren (children : list Items) (folder : Items) : Items :=
  mkItems (Items_Name folder) children (Items_Request folder).

(** Lines 272 to 301. The source walks a pointer to the slice it will append
    to; here each level rebuilds the slice it has descended through. *)
Fixpoint attach (folderSegments : list string) (item : Items)
    (current : list Items) : list Items :=
  match folderSegments with
  | [] => current ++ [item]
  | segment :: rest =>
      match findFolder segment current with
      | Some i =>
          alter (fun foundFolder =>
                   setChildren (attach rest item (Items_Items foundFolder))
                     foundFolder) i current
      | None => current ++ [mkItems segment (attach rest item []) None]
      end
  end.

(** The type assertions of lines 84 to 86. *)
Definition asString (v : option any) : option string :=
  match v with Some (any_string s) => Some s | _ => None end.

Definition asType (v : option any) : option Type_ :=
  match v with Some (any_Type t) => Some t | _ => None end.

(** Lines 113 to 264: the compiled request of a method, a path and a struct
    type, or the error of the JSON encoder. *)
Definition compile (fuel : nat) (rt : TypeTable)
    (defaults : gmap string string) (method path : string) (typ : Type_)
    : option (error + Request) :=
  acc ← walkStructFields fuel rt typ (registerField fuel rt defaults) noParams;
  Some (withBody rt acc (buildRequest method path acc)).

(** Lines 266 to 301. *)
Definition attachRequest (request : Request) (items : list Items)
    : list Items :=
  let pathSegments := URL_Path (Request_URL request) in
  let item := CreateItem (List.last pathSegments EmptyString) request in
  attach (removelast pathSegments) item items.

(** [Register]: the error it returns and the generator it leaves. The
    deferred [recover] has nothing to catch: no step of the model panics. *)
Definition Register (fuel : nat) (rt : TypeTable) (p : PostmanGen)
    (spec : gmap string any) : option (option error * PostmanGen) :=
  match asString (spec !! "method"), asString (spec !! "path"),
        asType (spec !! "inputType") with
  | Some method, Some path, Some inputType =>
      let typ := if Kind_eqb (Kind_of inputType) KPtr
                 then Elem rt inputType else inputType in
      if negb (Kind_eqb (Kind_of typ) KStruct) then
        Some (Some (errors_New
                "invalid object type: must be a struct or pointer to struct"),
              p)
      else
        r ← compile fuel rt (placeholderDefaults p) method path typ;
        match r with
        | inl err => Some (Some err, p)
        | inr request =>
            Some (None,
                  setItems p
                    (attachRequest request (Collection_Items (collection p))))
        end
  | _, _, _ =>
      Some (Some (errors_New
              "invalid spec: must contain method, path, and inputType"), p)
  end.

(** The calls a client makes on a generator, and a run of them. A call of
    [Register] that returns an error does not stop the run. *)
Inductive call : Type :=
| callAddVariable (key value : string)
| callAddPlaceholder (key value : string)
| callRegister (spec : gmap string any).

Fixpoint run (fuel : nat) (rt : TypeTable) (p : PostmanGen)
    (calls : list call) : option PostmanGen :=
  match calls with
  | [] => Some p
  | callAddVariable key value :: rest =>
      run fuel rt (AddVariable p key value) rest
  | callAddPlaceholder key value :: rest =>
      run fuel rt (AddPlaceholder p key value) rest
  | callRegister spec :: rest =>
      r ← Register fuel rt p spec; run fuel rt r.2 rest
  end.

(** ** Vocabulary of the properties *)

(** The keys the caller defaults are probed with, in the order of the
    source. *)
Definition probeKeys (field : StructField) : list string :=
  [keyOf field "json"; keyOf field "form"; keyOf field "formFile";
   keyOf field "query"; keyOf field "param"].

Definition collect (f : StructField) (l : list StructField)
  : option (list StructField) := Some (l ++ [f]).

(** The fields [walkStructFields] hands to its callback, in order. *)
Definition walkedFields (fuel : nat) (rt : TypeTable) (t : Type_)
  : option (list StructField) :=
  walkStructFields fuel rt t collect [].

Fixpoint foldFields {S : Type} (fn : StructField -> S -> option S)
    (fs : list StructField) (s : S) : option S :=
  match fs with
  | [] => Some s
  | f :: rest => s' ← fn f s; foldFields fn rest s'
  end.

(** Two walks agree when the one that collects tells the fields the other
    folds its callback over. *)
Definition walk_agrees {S : Type} (fn : StructField -> S -> option S)
    (walkC : Type_ -> list StructField -> option (list StructField))
    (walkF : Type_ -> S -> option S) : Prop :=
  forall ft l l', walkC ft l = Some l' ->
    exists fs, l' = l ++ fs /\
      (forall l2, walkC ft l2 = Some (l2 ++ fs)) /\
      forall s, walkF ft s = foldFields fn fs s.

Definition tagged (field : StructField) (role : string) : bool :=
  negb (unset (Get (Tag field) role)).

(** What the callback appends for a field whose string slots hold [v]. *)
Definition formEntries (field : StructField) (v : Value) : list FormParam :=
  (if tagged field "form"
   then [mkFormParam (keyOf field "form") (fmt.Sprint v) "text"
           (Get (Tag field) "description")] else []) ++
  (if tagged field "formFile"
   then [mkFormParam (keyOf field "formFile") (fmt.Sprint v) "file"
           (Get (Tag field) "description")] else []).

Definition queryEntries (field : StructField) (v : Value) : list QueryParam :=
  if tagged field "query"
  then [mkQueryParam (keyOf field "query") (fmt.Sprint v)
          (Some (Get (Tag field) "description"))] else [].

Definition paramEntries (field : StructField) (v : Value) : list Variable' :=
  if tagged field "param"
  then [mkVariable (keyOf field "param") "string" (fmt.Sprint v) EmptyString]
  else [].

Definition hasFormTag (field : StructField) : bool :=
  tagged field "form" || tagged field "formFile".

Definition hasJsonTag (field : StructField) : bool := tagged field "json".

(** The names of the folders among the children of a node. *)
Definition isGroup (item : Items) : bool :=
  match Items_Request item with None => true | Some _ => false end.

Definition folderNames (items : list Items) : list string :=
  Items_Name <$> List.filter isGroup items.

(** The invariant of the tree: below every node, and at the root, no two
    folders have the same name. *)
Fixpoint uniqueFoldersBelow (item : Items) : bool :=
  match item with
  | mkItems _ children _ =>
      bool_decide (NoDup (folderNames children))
      && forallb uniqueFoldersBelow children
  end.

Definition uniqueFolders (items : list Items) : bool :=
  bool_decide (NoDup (folderNames items)) && forallb uniqueFoldersBelow items.

(** The children of the folder a group path leads to, taking at each level
    the first folder with the name of the segment. *)
Fixpoint folderAt (folderSegments : list string) (items : list Items)
    : option (list Items) :=
  match folderSegments with
  | [] => Some items
  | segment :: rest =>
      i ← findFolder segment items;
      folder ← items !! i;
      folderAt rest (Items_Items folder)
  end.

(** A spec map is malformed when it has no string under [method], no
    string under [path], no type under [inputType], or a type there that is
    not a struct once a pointer is followed. *)
Definition malformed (rt : TypeTable) (spec : gmap string any) : Prop :=
  (forall s, spec !! "method" ≠ Some (any_string s)) \/
  (forall s, spec !! "path" ≠ Some (any_string s)) \/
  (forall t, spec !! "inputType" ≠ Some (any_Type t)) \/
  (exists t, spec !! "inputType" = Some (any_Type t) /\
     Kind_of (if Kind_eqb (Kind_of t) KPtr then Elem rt t else t) ≠ KStruct).

(** The spec map of a method, a path and an input type. *)
Definition specOf (method path : string) (inputType : Type_)
  : gmap string any :=
  <["method" := any_string method]>
    (<["path" := any_string path]>
       (<["inputType" := any_Type inputType]> ∅)).

(** The variable of a [:key] segment, from the segment. *)
Definition segmentVariable (pathVariables : list Variable')
    (segment : string) : Variable' :=
  urlVariable pathVariables (strings.TrimPrefix segment ":").

Definition isVariableSegment (segment : string) : bool :=
  strings.HasPrefix segment ":".

(** *** Sample types *)

(** A table for programs whose types refer to no declared type. *)
Definition noTypes : TypeTable := fun _ => Interface.

(** The request structs of the README. *)
Definition CreateUserRequest : Type_ :=
  Struct
    [mkStructField "Username" EmptyString String_
       [("json", "username"); ("description", "The desired username");
        ("example", "johndoe")] false;
     mkStructField "Email" EmptyString String_
       [("json", "email"); ("description", "User's email address");
        ("example", "john.doe@example.com")] false;
     mkStructField "IsAdmin" EmptyString Bool
       [("json", "is_admin"); ("example", "false")] false;
     mkStructField "Age" EmptyString Int [("json", "age")] false].

Definition GetUserRequest : Type_ :=
  Struct
    [mkStructField "UserID" EmptyString String_
       [("param", "userId"); ("description", "ID of the user to retrieve");
        ("example", "user-abc-123")] false;
     mkStructField "Format" EmptyString String_
       [("query", "format");
        ("description", "Optional response format (e.g., 'short')");
        ("example", "full")] false;
     mkStructField "TenantID" EmptyString String_
       [("query", "tenant_id")] false].

Definition UploadPictureRequest : Type_ :=
  Struct
    [mkStructField "UserID" EmptyString String_
       [("param", "userId"); ("description", "ID of the user");
        ("example", "user-abc-123")] false;
     mkStructField "Description" EmptyString String_
       [("form", "description");
        ("description", "Optional description for the image");
        ("example", "My profile picture")] false;
     mkStructField "ProfilePic" EmptyString String_
       [("formFile", "profile_pic");
        ("description", "The profile picture file to upload")] false].

(** A struct with a form field and a JSON field. *)
Definition FormAndJson : Type_ :=
  Struct
    [mkStructField "Title" EmptyString String_ [("form", "title")] false;
     mkStructField "Count" EmptyString Int [("json", "count")] false].

(** A struct whose JSON field has no JSON encoding. *)
Definition WithChannel : Type_ :=
  Struct [mkStructField "Events" EmptyString Chan [("json", "events")] false].

(** Fields of several kinds with no example. *)
Definition Zeroes : Type_ :=
  Struct
    [mkStructField "N" EmptyString Int [("json", "n"); ("query", "n")] false;
     mkStructField "On" EmptyString Bool [("json", "on"); ("query", "on")] false;
     mkStructField "Tags" EmptyString (Slice 1)
       [("json", "tags"); ("query", "tags")] false;
     mkStructField "Point" EmptyString
       (Struct [mkStructField "X" EmptyString Int [("json", "x")] false;
                mkStructField "Y" EmptyString Int [] false])
       [("json", "point"); ("query", "point")] false].

(** Type 0 embeds a pointer to itself: [type T struct { *T }]. Type 1 is
    [int]. *)
Definition declared : TypeTable :=
  fun id =>
    match id with
    | 0 => Struct [mkStructField "T" EmptyString (Ptr 0) [] true]
    | _ => Int
    end.

(** The compiled requests of some of the sample types. *)
Definition requestOf (r : option (error + Request)) : Request :=
  match r with
  | Some (inr request) => request
  | _ => mkRequest (mkURL EmptyString [] [] [] []) EmptyString []
           (mkBody EmptyString EmptyString None None)
  end.

Definition formAndJsonRequest : Request :=
  Eval vm_compute in
    requestOf (compile 1 noTypes ∅ "POST" "/items" FormAndJson).

Definition createUserRequest : Request :=
  Eval vm_compute in
    requestOf (compile 1 noTypes ∅ "POST" "/users" CreateUserRequest).

Definition uploadPictureRequest : Request :=
  Eval vm_compute in
    requestOf (compile 1 noTypes ∅ "POST" "/users/:userId/picture"
                 UploadPictureRequest).

Definition unmatchedRequest : Request :=
  Eval vm_compute in
    requestOf (compile 1 noTypes ∅ "GET" "/orgs/:orgId/users/:userId"
                 GetUserRequest).

(** A run on a fresh generator: the README's three routes, the last one
    twice, with one default between them. *)
Definition sampleCalls : list call :=
  [callAddVariable "base_url" "http://localhost:8080";
   callRegister (specOf "POST" "/users" CreateUserRequest);
   callAddPlaceholder "tenant_id" "default-tenant-001";
   callRegister (specOf "GET" "/users/:userId" GetUserRequest);
   callRegister (specOf "POST" "/users/:userId/picture" UploadPictureRequest);
   callRegister (specOf "POST" "/users/:userId/picture" UploadPictureRequest)].

Definition sampleGen : PostmanGen := NewPostmanGen "My API" EmptyString.

Definition afterSampleCalls : PostmanGen :=
  Eval vm_compute in default sampleGen (run 1 noTypes sampleGen sampleCalls).

(** What a call that fails to encode its JSON body leaves. *)
Definition afterFailedRegister : PostmanGen :=
  Eval vm_compute in
    match Register 1 noTypes sampleGen (specOf "POST" "/events" WithChannel) with
    | Some (_, p) => p
    | None => sampleGen
    end.

(** A measure on types that decreases from a pointer or a slice to its
    element and from a struct to the types of its fields. A table of
    declared types that has one holds no type that contains itself. *)
Definition measured (rt : TypeTable) (m : Type_ -> nat) : Prop :=
  (forall e, m (rt e) < m (Ptr e)) /\
  (forall e, m (rt e) < m (Slice e)) /\
  (forall fs f, f ∈ fs -> m (Type' f) < m (Struct fs)).

(** The size of a descriptor. It is a measure for [noTypes]. *)
Fixpoint typeSize (t : Type_) : nat :=
  match t with
  | Ptr _ | Slice _ | Map _ _ => 1
  | Array _ e => S (typeSize e)
  | Struct fs =>
      S ((fix sizes (l : list StructField) : nat :=
            match l with
            | [] => 0
            | mkStructField _ _ ty _ _ :: r => typeSize ty + sizes r
            end) fs)
  | _ => 0
  end.

(** *** Vocabulary of the further properties *)

(** A type with a pointer followed, as lines 36 to 38 and 52 to 54 do. *)
Definition deref (rt : TypeTable) (t : Type_) : Type_ :=
  if Kind_eqb (Kind_of t) KPtr then Elem rt t else t.

(** An embedded struct, or an embedded pointer to one (lines 50 to 55). *)
Definition isEmbeddedStruct (rt : TypeTable) (f : StructField) : bool :=
  Anonymous f && Kind_eqb (Kind_of (deref rt (Type' f))) KStruct.

Definition isExported (f : StructField) : bool := isEmpty (PkgPath f).

(** The last field of a list that is tagged [json] with a given key. *)
Fixpoint lastJsonField (key : string) (fs : list StructField)
    : option StructField :=
  match fs with
  | [] => None
  | f :: rest =>
      match lastJsonField key rest with
      | Some g => Some g
      | None =>
          if tagged f "json" && String.eqb (keyOf f "json") key
          then Some f else None
      end
  end.

(** The requests and the folders of a tree. *)
Fixpoint requestsBelow (item : Items) : nat :=
  match item with
  | mkItems _ children request =>
      (match request with Some _ => 1 | None => 0 end)
      + list_sum (List.map requestsBelow children)
  end.

Definition requestCount (items : list Items) : nat :=
  list_sum (List.map requestsBelow items).

Fixpoint foldersBelow (item : Items) : nat :=
  match item with
  | mkItems _ children request =>
      (match request with Some _ => 0 | None => 1 end)
      + list_sum (List.map foldersBelow children)
  end.

Definition folderCount (items : list Items) : nat :=
  list_sum (List.map foldersBelow items).

(** No node that carries a request has children. *)
Fixpoint leafBelow (item : Items) : bool :=
  match item with
  | mkItems _ children request =>
      (match request, children with Some _, _ :: _ => false | _, _ => true end)
      && forallb leafBelow children
  end.

Definition requestsAreLeaves (items : list Items) : bool :=
  forallb leafBelow items.

(** What the calls of a run add to the variables and to the defaults. *)
Fixpoint addedVariables (calls : list call) : list Variable' :=
  match calls with
  | [] => []
  | callAddVariable key value :: rest =>
      mkVariable key "string" value EmptyString :: addedVariables rest
  | _ :: rest => addedVariables rest
  end.

Fixpoint addedDefaults (calls : list call) (defaults : gmap string string)
    : gmap string string :=
  match calls with
  | [] => defaults
  | callAddPlaceholder key value :: rest =>
      addedDefaults rest (<[key := value]> defaults)
  | _ :: rest => addedDefaults rest defaults
  end.


(** *** More sample types *)

(** [type Page struct { Limit int; offset int }] embedded by value, and
    [Audit] embedded through a pointer (type 2 of [embedding]). *)
Definition Page : Type_ :=
  Struct [mkStructField "Limit" EmptyString Int [("query", "limit")] false;
          mkStructField "offset" "main" Int [("query", "offset")] false].

Definition Audit : Type_ :=
  Struct [mkStructField "Actor" EmptyString String_
            [("json", "actor"); ("example", "root")] false].

Definition embedding : TypeTable :=
  fun id => match id with 2 => Audit | _ => Int end.

Definition ListRequest : Type_ :=
  Struct [mkStructField "Filter" EmptyString String_ [("query", "q")] false;
          mkStructField "Page" EmptyString Page [] true;
          mkStructField "Audit" EmptyString (Ptr 2) [] true;
          mkStructField "Sort" EmptyString String_ [("query", "sort")] false].



(** A form field beside a JSON field that has no encoding. *)
Definition FormAndChannel : Type_ :=
  Struct [mkStructField "Title" EmptyString String_ [("form", "title")] false;
          mkStructField "Events" EmptyString Chan [("json", "events")] false].

(** Two fields under the same JSON key. *)
Definition TwoNames : Type_ :=
  Struct [mkStructField "First" EmptyString String_
            [("json", "name"); ("example", "first")] false;
          mkStructField "Second" EmptyString Int [("json", "name")] false].

(** The fields the walk hands over for [ListRequest]. *)
Definition listRequestFields : list StructField :=
  Eval vm_compute in default [] (walkedFields 2 embedding ListRequest).


(** The field [TenantID string `query:"tenant_id"`] of [GetUserRequest]. *)
Definition TenantID : StructField :=
  mkStructField "TenantID" EmptyString String_ [("query", "tenant_id")] false.

(** * Properties *)

(** ** Strings *)

Lemma Split_nonempty s sep : strings.Split s sep ≠ [].
Proof.
  destruct s as [|c r]; simpl; [done|].
  destruct (Ascii.eqb c sep); [done|].
  by destruct (strings.Split r sep).
Qed.

Lemma substring_all s : String.substring 0 (String.length s) s = s.
Proof. induction s as [|c r IH]; simpl; [done|]. by rewrite IH. Qed.

(** Line 214 writes back the segment it read. *)
Lemma colon_TrimPrefix segment :
  strings.HasPrefix segment ":" = true ->
  ":" +:+ strings.TrimPrefix segment ":" = segment.
Proof.
  unfold strings.TrimPrefix. intros H. rewrite H.
  destruct segment as [|c r]; [done|].
  cbn [strings.HasPrefix] in H. rewrite andb_true_r in H.
  apply Ascii.eqb_eq in H as <-.
  cbn [String.length String.substring Nat.sub String.append].
  by rewrite Nat.sub_0_r, substring_all.
Qed.

Lemma unset_false_iff s : unset s = false <-> s ≠ EmptyString /\ s ≠ "-".
Proof.
  unfold unset. rewrite orb_false_iff.
  by rewrite !String.eqb_neq.
Qed.

(** ** Placeholder resolution *)

Lemma placeholderOf_example defaults field :
  unset (Get (Tag field) "example") = false ->
  placeholderOf defaults field = Get (Tag field) "example".
Proof. unfold placeholderOf. by intros ->. Qed.

Lemma placeholderOf_no_default defaults field :
  unset (Get (Tag field) "example") = true ->
  (forall key, key ∈ probeKeys field -> defaults !! key = None) ->
  placeholderOf defaults field = Get (Tag field) "example".
Proof.
  unfold placeholderOf, probeKeys. intros -> Hnone.
  by rewrite !Hnone by set_solver.
Qed.

Lemma placeholderOf_first_default defaults field i key v :
  unset (Get (Tag field) "example") = true ->
  probeKeys field !! i = Some key ->
  defaults !! key = Some v ->
  (forall j key', j < i -> probeKeys field !! j = Some key' ->
                  defaults !! key' = None) ->
  placeholderOf defaults field = v.
Proof.
  unfold placeholderOf, probeKeys. intros -> Hi Hv Hbefore.
  do 5 (destruct i as [|i];
        [ injection Hi as <-; by rewrite Hv
        | rewrite (Hbefore 0 _ ltac:(lia) eq_refl);
          specialize (fun j k H => Hbefore (S j) k (proj1 (Nat.succ_lt_mono _ _) H));
          simpl in Hi, Hbefore ]).
  done.
Qed.

(** C1. The placeholder of a field: a usable [example] tag wins whatever
    the caller defaults hold; without one, the defaults are probed with the
    json, form, formFile, query and param key in this order and the first
    entry present gives the placeholder; with no entry either, the JSON slot
    and the string slots take the zero value of the field type. *)
Theorem placeholder_precedence (defaults : gmap string string)
    (field : StructField) :
  let example := Get (Tag field) "example" in
  (example ≠ EmptyString -> example ≠ "-" ->
   placeholderOf defaults field = example) /\
  (unset example = true ->
   forall i key v,
     probeKeys field !! i = Some key ->
     defaults !! key = Some v ->
     (forall j key', j < i -> probeKeys field !! j = Some key' ->
                     defaults !! key' = None) ->
     placeholderOf defaults field = v) /\
  (unset example = true ->
   (forall key, key ∈ probeKeys field -> defaults !! key = None) ->
   forall fuel rt,
     jsonValue fuel rt field (placeholderOf defaults field)
       = TypeZeroValue fuel rt (Type' field) false /\
     slotValue fuel rt field (placeholderOf defaults field)
       = TypeZeroValue fuel rt (Type' field) true).
Proof.
  cbv zeta. split_and!.
  - intros H1 H2. apply placeholderOf_example. by apply unset_false_iff.
  - intros. by eapply placeholderOf_first_default.
  - intros Hex Hnone fuel rt.
    rewrite (placeholderOf_no_default _ _ Hex Hnone).
    unfold jsonValue, slotValue. by rewrite Hex.
Qed.

(** A default under the json key and another under the query key: the
    json one is the placeholder. *)
Example placeholder_json_before_query :
  placeholderOf (<["tenant" := "from-json"]> (<["tid" := "from-query"]> ∅))
    (mkStructField "TenantID" EmptyString String_
       [("json", "tenant"); ("query", "tid")] false)
  = "from-json".
Proof. reflexivity. Qed.

(** A default that is itself empty or [-] is found by the probe and then
    treated like no placeholder: the slots take the zero value. *)
Example placeholder_sentinel_default :
  let field := mkStructField "Age" EmptyString Int [("json", "age")] false in
  let defaults : gmap string string := <["age" := "-"]> ∅ in
  placeholderOf defaults field = "-" /\
  jsonValue 1 noTypes field (placeholderOf defaults field)
  = Some (VZero Int) /\
  fmt.Sprint <$> slotValue 1 noTypes field (placeholderOf defaults field)
  = Some "0".
Proof. by vm_compute. Qed.

(** ** The field walk as a fold over the visited fields *)

Section walk.
Context {S : Type} (rt : TypeTable) (fn : StructField -> S -> option S).

Lemma foldFields_app fs1 fs2 s :
  foldFields fn (fs1 ++ fs2) s = foldFields fn fs1 s ≫= foldFields fn fs2.
Proof.
  revert s. induction fs1 as [|f fs1 IH]; intros s; simpl; [done|].
  destruct (fn f s) as [s'|]; simpl; [apply IH|done].
Qed.

Lemma walkFields_agrees walkC walkF fs0 :
  walk_agrees fn walkC walkF ->
  forall l l', walkFields walkC rt collect fs0 l = Some l' ->
    exists fs, l' = l ++ fs /\
      (forall l2, walkFields walkC rt collect fs0 l2 = Some (l2 ++ fs)) /\
      forall s, walkFields walkF rt fn fs0 s = foldFields fn fs s.
Proof.
  intros Hw. induction fs0 as [|f rest IH]; intros l l' H; simpl in *.
  - injection H as <-. exists []. rewrite app_nil_r. split_and!; [done| |done].
    intros l2. by rewrite app_nil_r.
  - destruct (negb (isEmpty (PkgPath f))); [by apply IH|].
    destruct (Anonymous f && Kind_eqb (Kind_of _) KStruct).
    + destruct (walkC _ l) as [l1|] eqn:E1; simpl in H; [|done].
      destruct (Hw _ _ _ E1) as (fs1 & -> & HC1 & HF1).
      destruct (IH _ _ H) as (fs2 & -> & HC2 & HF2).
      exists (fs1 ++ fs2). rewrite app_assoc. split_and!; [done| |].
      * intros l2. rewrite HC1. simpl. rewrite HC2. by rewrite app_assoc.
      * intros s. rewrite HF1, foldFields_app.
        destruct (foldFields fn fs1 s); simpl; [apply HF2|done].
    + unfold collect in H at 1. simpl in H.
      destruct (IH _ _ H) as (fs2 & -> & HC2 & HF2).
      exists (f :: fs2). rewrite <- app_assoc. split_and!; [done| |].
      * intros l2. unfold collect at 1. simpl. rewrite HC2.
        by rewrite <- app_assoc.
      * intros s. simpl. destruct (fn f s); simpl; [apply HF2|done].
Qed.

Lemma walkStructFields_agrees fuel :
  walk_agrees fn (fun t l => walkStructFields fuel rt t collect l)
              (fun t s => walkStructFields fuel rt t fn s).
Proof.
  induction fuel as [|fuel IH]; intros t l l' H; simpl in *; [done|].
  destruct (negb (Kind_eqb (Kind_of _) KStruct)).
  - injection H as <-. exists []. rewrite app_nil_r. split_and!; [done| |done].
    intros l2. by rewrite app_nil_r.
  - by apply (walkFields_agrees _ _ _ IH).
Qed.

(** When the walk comes back it is the fold of the callback over the
    visited fields. *)
Lemma walkStructFields_fold fuel t fs s :
  walkedFields fuel rt t = Some fs ->
  walkStructFields fuel rt t fn s = foldFields fn fs s.
Proof.
  intros H. destruct (walkStructFields_agrees fuel _ _ _ H) as (fs' & E & _ & HF).
  simpl in E. by subst fs'.
Qed.

End walk.

Section walk_back.
Context {S : Type} (rt : TypeTable) (fn : StructField -> S -> option S).

Lemma walkFields_collect_total walkC (walkF : Type_ -> S -> option S) fs0 :
  (forall ft s s', walkF ft s = Some s' -> forall l, is_Some (walkC ft l)) ->
  forall s s', walkFields walkF rt fn fs0 s = Some s' ->
  forall l, is_Some (walkFields walkC rt collect fs0 l).
Proof.
  intros Hw. induction fs0 as [|f rest IH]; intros s s' H l; simpl in *.
  - by eexists.
  - destruct (negb (isEmpty (PkgPath f))); [by eapply IH|].
    destruct (Anonymous f && Kind_eqb (Kind_of _) KStruct).
    + destruct (walkF _ s) as [s1|] eqn:E1; simpl in H; [|done].
      destruct (Hw _ _ _ E1 l) as [l1 ->]. simpl. by eapply IH.
    + destruct (fn f s) as [s1|]; simpl in H; [|done].
      unfold collect at 1. simpl. by eapply IH.
Qed.

Lemma walkStructFields_collect_total fuel t s s' :
  walkStructFields fuel rt t fn s = Some s' ->
  forall l, is_Some (walkStructFields fuel rt t collect l).
Proof.
  revert t s s'. induction fuel as [|fuel IH]; intros t s s' H l;
    simpl in *; [done|].
  destruct (negb (Kind_eqb (Kind_of _) KStruct)); [by eexists|].
  eapply walkFields_collect_total; [|exact H]. intros ft s1 s2. apply IH.
Qed.

(** A walk that comes back has visited a list of fields and folded the
    callback over it. *)
Lemma walkStructFields_visits fuel t s s' :
  walkStructFields fuel rt t fn s = Some s' ->
  exists fs, walkedFields fuel rt t = Some fs /\ foldFields fn fs s = Some s'.
Proof.
  intros H.
  destruct (walkStructFields_collect_total _ _ _ _ H []) as [fs Hfs].
  exists fs. split; [done|].
  by rewrite <- (walkStructFields_fold rt fn fuel t fs s Hfs).
Qed.

End walk_back.

(** ** One field *)

Lemma registerField_inv fuel rt defaults field acc acc' :
  registerField fuel rt defaults field acc = Some acc' ->
  exists v,
    slotValue fuel rt field (placeholderOf defaults field) = Some v /\
    formParams acc' = formParams acc ++ formEntries field v /\
    queryParams acc' = queryParams acc ++ queryEntries field v /\
    pathVariables acc' = pathVariables acc ++ paramEntries field v /\
    (if tagged field "json"
     then exists j,
            jsonValue fuel rt field (placeholderOf defaults field) = Some j /\
            jsonParams acc' = <[keyOf field "json" := j]> (jsonParams acc)
     else jsonParams acc' = jsonParams acc).
Proof.
  unfold registerField, formEntries, queryEntries, paramEntries, tagged.
  intros H.
  destruct (slotValue _ _ _ _) as [v|] eqn:Ev; cycle 1.
  { destruct (negb (unset (Get (Tag field) "json"))); simpl in H;
      [destruct (jsonValue _ _ _ _); simpl in H|]; done. }
  exists v. split; [done|].
  destruct (negb (unset (Get (Tag field) "json"))) eqn:Ej; simpl in H.
  - destruct (jsonValue _ _ _ _) as [j|] eqn:Evj; simpl in H; [|done].
    injection H as <-. simpl.
    repeat match goal with |- context [negb (unset ?x)] =>
      destruct (negb (unset x)) end;
    rewrite ?app_nil_r, <- ?app_assoc; split_and!; eauto.
  - injection H as <-. simpl.
    repeat match goal with |- context [negb (unset ?x)] =>
      destruct (negb (unset x)) end;
    rewrite ?app_nil_r, <- ?app_assoc; split_and!; eauto.
Qed.

(** ** All fields *)

Section fields.
Context (fuel : nat) (rt : TypeTable) (defaults : gmap string string).

Lemma fold_formParams fs acc acc' :
  foldFields (registerField fuel rt defaults) fs acc = Some acc' ->
  (length (formParams acc') =? 0)
  = (length (formParams acc) =? 0) && negb (existsb hasFormTag fs).
Proof.
  revert acc. induction fs as [|f fs IH]; intros acc H; simpl in *.
  - injection H as <-. by rewrite andb_true_r.
  - destruct (registerField _ _ _ f acc) as [acc1|] eqn:E; simpl in H; [|done].
    rewrite (IH _ H).
    destruct (registerField_inv _ _ _ _ _ _ E) as (v & _ & -> & _).
    rewrite length_app. unfold formEntries, hasFormTag.
    destruct (tagged f "form"), (tagged f "formFile"); simpl;
      rewrite ?Nat.add_0_r, ?andb_false_r; try done;
      by destruct (formParams acc); simpl; rewrite ?Nat.add_succ_r.
Qed.

Lemma fold_jsonParams fs acc acc' :
  foldFields (registerField fuel rt defaults) fs acc = Some acc' ->
  (size (jsonParams acc') =? 0)
  = (size (jsonParams acc) =? 0) && negb (existsb hasJsonTag fs).
Proof.
  revert acc. induction fs as [|f fs IH]; intros acc H; simpl in *.
  - injection H as <-. by rewrite andb_true_r.
  - destruct (registerField _ _ _ f acc) as [acc1|] eqn:E; simpl in H; [|done].
    rewrite (IH _ H).
    destruct (registerField_inv _ _ _ _ _ _ E) as (v & _ & _ & _ & _ & Hj).
    unfold hasJsonTag. destruct (tagged f "json"); simpl.
    + destruct Hj as (j & _ & ->). rewrite andb_false_r.
      apply andb_false_intro1, Nat.eqb_neq.
      intros Hz. apply map_size_empty_iff in Hz.
      by apply insert_non_empty in Hz.
    + by rewrite Hj.
Qed.

(** The path-variable candidates: one per visited field with a usable
    [param] tag, in order, with the string of the field's slot value. *)
Lemma fold_pathVariables fs acc acc' :
  foldFields (registerField fuel rt defaults) fs acc = Some acc' ->
  exists vs,
    Forall2 (fun f v =>
               slotValue fuel rt f (placeholderOf defaults f) = Some v) fs vs /\
    pathVariables acc'
    = pathVariables acc ++ concat (zip_with paramEntries fs vs).
Proof.
  revert acc. induction fs as [|f fs IH]; intros acc H; simpl in *.
  - injection H as <-. exists []. by rewrite app_nil_r.
  - destruct (registerField _ _ _ f acc) as [acc1|] eqn:E; simpl in H; [|done].
    destruct (IH _ H) as (vs & HF & ->).
    destruct (registerField_inv _ _ _ _ _ _ E) as (v & Hv & _ & _ & -> & _).
    exists (v :: vs). split; [by constructor|].
    simpl. by rewrite <- app_assoc.
Qed.

End fields.

(** ** The compiled request *)

Lemma compile_inv fuel rt defaults method path typ r :
  compile fuel rt defaults method path typ = Some r ->
  exists fields acc,
    walkedFields fuel rt typ = Some fields /\
    walkStructFields fuel rt typ (registerField fuel rt defaults) noParams
      = Some acc /\
    foldFields (registerField fuel rt defaults) fields noParams = Some acc /\
    r = withBody rt acc (buildRequest method path acc).
Proof.
  unfold compile. intros H.
  destruct (walkStructFields _ _ _ _ _) as [acc|] eqn:E; simpl in H; [|done].
  injection H as <-.
  destruct (walkStructFields_visits _ _ _ _ _ _ E) as (fs & Hfs & Hfold).
  by exists fs, acc.
Qed.

Lemma buildRequest_Header method path acc :
  Request_Header (buildRequest method path acc) = [].
Proof. unfold buildRequest. by destruct (processSegments _ _). Qed.

Lemma buildRequest_Body method path acc :
  Request_Body (buildRequest method path acc)
  = mkBody EmptyString EmptyString None None.
Proof. unfold buildRequest. by destruct (processSegments _ _). Qed.

Lemma withBody_URL rt acc r request :
  withBody rt acc r = inr request ->
  Request_URL request = Request_URL r /\
  Request_Method request = Request_Method r.
Proof.
  unfold withBody. intros H.
  destruct (negb (length _ =? 0)); [by injection H as <-|].
  destruct (negb (size _ =? 0)); [|by injection H as <-].
  destruct (json.MarshalIndent _ _ _ _); [by injection H as <-|done].
Qed.

(** C2. The body of a compiled request, by first match: a visited field
    with a usable [form] or [formFile] tag gives the mode [formdata], the one
    header [Content-Type: multipart/form-data] and no JSON text; otherwise a
    visited field with a usable [json] tag gives the mode [raw], the JSON
    object indented by two spaces, and the one header
    [Content-Type: application/json]; otherwise the body and the header
    list stay empty. *)
Theorem body_mode_first_match fuel rt defaults method path typ request :
  compile fuel rt defaults method path typ = Some (inr request) ->
  exists fields acc,
    walkedFields fuel rt typ = Some fields /\
    walkStructFields fuel rt typ (registerField fuel rt defaults) noParams
      = Some acc /\
    let body := Request_Body request in
    if existsb hasFormTag fields then
      Body_Mode body = "formdata" /\
      Body_FormData body = Some (formParams acc) /\
      Request_Header request
        = [mkHeader "Content-Type" "multipart/form-data"] /\
      Body_Raw body = EmptyString /\ Body_Options body = None
    else if existsb hasJsonTag fields then
      Body_Mode body = "raw" /\
      json.MarshalIndent rt (jsonParams acc) EmptyString "  "
        = Some (Body_Raw body) /\
      Body_Options body = Some (mkBodyOptions "json") /\
      Request_Header request = [mkHeader "Content-Type" "application/json"] /\
      Body_FormData body = None
    else
      Body_Mode body = EmptyString /\ Body_Raw body = EmptyString /\
      Body_FormData body = None /\ Body_Options body = None /\
      Request_Header request = [].
Proof.
  intros H.
  destruct (compile_inv _ _ _ _ _ _ _ H) as (fs & acc & Hfs & Hwalk & Hfold & Hr).
  exists fs, acc. split_and!; [done..|].
  pose proof (fold_formParams _ _ _ _ _ _ Hfold) as Hform.
  pose proof (fold_jsonParams _ _ _ _ _ _ Hfold) as Hjson.
  simpl in Hform, Hjson. rewrite map_size_empty in Hjson. simpl in Hjson.
  unfold withBody in Hr. rewrite Hform, Hjson, !negb_involutive in Hr.
  rewrite buildRequest_Header, buildRequest_Body in Hr. simpl in Hr.
  destruct (existsb hasFormTag fs).
  - injection Hr as ->. by simpl.
  - destruct (existsb hasJsonTag fs).
    + destruct (json.MarshalIndent _ _ _ _) as [b|]; [|done].
      injection Hr as ->. by simpl.
    + injection Hr as ->. simpl.
      by rewrite buildRequest_Header, buildRequest_Body.
Qed.

(** ** The path tree *)

Lemma isFolder_true segment item :
  isFolder segment item = true <->
  Items_Name item = segment /\ isGroup item = true.
Proof.
  unfold isFolder, isGroup. rewrite andb_true_iff, String.eqb_eq.
  by destruct (Items_Request item).
Qed.

(** The search returns the first folder with the name of the segment. *)
Lemma findFolder_Some segment items i :
  findFolder segment items = Some i <->
  exists folder, items !! i = Some folder /\
    isFolder segment folder = true /\
    forall j other, j < i -> items !! j = Some other ->
                    isFolder segment other = false.
Proof.
  revert i. induction items as [|x items IH]; intros i; simpl.
  - split; [done|]. by intros (f & ? & _).
  - destruct (isFolder segment x) eqn:Ex.
    + split.
      * intros [= <-]. exists x. split_and!; [done..|]. intros; lia.
      * intros (f & Hf & Hm & Hfirst). destruct i as [|i]; [done|].
        by rewrite (Hfirst 0 x) in Ex by (done || lia).
    + destruct (findFolder segment items) as [k|] eqn:Ek; simpl.
      * split.
        -- intros [= <-]. destruct (proj1 (IH k) eq_refl) as (f & Hf & Hm & Hfirst).
           exists f. split_and!; [done..|].
           intros [|j] other Hj Ho; simpl in Ho; [by injection Ho as <-|].
           apply (Hfirst j); [lia|done].
        -- intros (f & Hf & Hm & Hfirst). destruct i as [|i].
           { simpl in Hf. injection Hf as <-. congruence. }
           f_equal. assert (Some k = Some i) as [= ->]; [|done].
           apply IH. exists f. split_and!; [done..|].
           intros j other Hj Ho. apply (Hfirst (S j)); [lia|done].
      * split; [done|]. intros (f & Hf & Hm & Hfirst).
        destruct i as [|i]; [simpl in Hf; injection Hf as <-; congruence|].
        assert (None = Some i) as [=]. apply IH. exists f. split_and!; [done..|].
        intros j other Hj Ho. apply (Hfirst (S j)); [lia|done].
Qed.

Lemma findFolder_None segment items :
  findFolder segment items = None <->
  Forall (fun other => isFolder segment other = false) items.
Proof.
  induction items as [|x items IH]; simpl; [by split; [constructor|]|].
  destruct (isFolder segment x) eqn:Ex.
  - split; [done|]. intros H. inversion H; congruence.
  - destruct (findFolder segment items); simpl.
    + split; [done|]. intros H. inversion H as [|? ? _ H']. by apply IH in H'.
    + split; [|done]. intros _. constructor; [done|]. by apply IH.
Qed.

Lemma findFolder_None_names segment items :
  findFolder segment items = None <-> segment ∉ folderNames items.
Proof.
  rewrite findFolder_None. unfold folderNames.
  induction items as [|x items IH].
  - split; [intros _; apply not_elem_of_nil|constructor].
  - rewrite Forall_cons, IH. cbn [List.filter].
    destruct (isGroup x) eqn:Eg.
    + rewrite fmap_cons, not_elem_of_cons. apply and_iff_compat_r.
      split.
      * intros Hf E. by rewrite (proj2 (isFolder_true _ x)) in Hf.
      * intros Hn. destruct (isFolder segment x) eqn:Ef; [|done].
        apply isFolder_true in Ef as [? _]. congruence.
    + split; [tauto|]. intros H. split; [|done].
      destruct (isFolder segment x) eqn:Ef; [|done].
      apply isFolder_true in Ef as [_ ?]. congruence.
Qed.

Lemma folderNames_app items1 items2 :
  folderNames (items1 ++ items2) = folderNames items1 ++ folderNames items2.
Proof. unfold folderNames. by rewrite List.filter_app, fmap_app. Qed.

Lemma folderNames_alter (g : Items -> Items) i items :
  (forall x, Items_Name (g x) = Items_Name x) ->
  (forall x, Items_Request (g x) = Items_Request x) ->
  folderNames (alter g i items) = folderNames items.
Proof.
  intros Hn Hr.
  assert (forall x, isGroup (g x) = isGroup x) as Hg.
  { intros x. unfold isGroup. by rewrite Hr. }
  unfold folderNames.
  revert i. induction items as [|x items IH]; intros [|i]; try done.
  - cbn [alter list_alter List.filter]. rewrite Hg.
    destruct (isGroup x); [|done]. by rewrite !fmap_cons, Hn.
  - cbn [alter list_alter List.filter]. specialize (IH i).
    destruct (isGroup x); [|done]. rewrite !fmap_cons. f_equal. apply IH.
Qed.

Lemma findFolder_alter (g : Items -> Items) segment i items :
  (forall x, isFolder segment (g x) = isFolder segment x) ->
  findFolder segment (alter g i items) = findFolder segment items.
Proof.
  intros Hg. revert i.
  induction items as [|x items IH]; intros [|i]; try done.
  - cbn [alter list_alter findFolder]. by rewrite Hg.
  - cbn [alter list_alter findFolder].
    destruct (isFolder segment x); [done|]. f_equal. apply IH.
Qed.

Lemma findFolder_app_new segment items folder :
  findFolder segment items = None ->
  isFolder segment folder = true ->
  findFolder segment (items ++ [folder]) = Some (length items).
Proof.
  intros Hnone Hf. induction items as [|x items IH]; simpl in *.
  - by rewrite Hf.
  - destruct (isFolder segment x); [done|].
    destruct (findFolder segment items); [done|]. by rewrite IH.
Qed.

Lemma isFolder_setChildren segment children folder :
  isFolder segment (setChildren children folder) = isFolder segment folder.
Proof. done. Qed.

Lemma uniqueFoldersBelow_children item :
  uniqueFoldersBelow item = uniqueFolders (Items_Items item).
Proof. by destruct item. Qed.

Lemma uniqueFolders_spec items :
  uniqueFolders items = true <->
  NoDup (folderNames items) /\
  Forall (fun item => uniqueFolders (Items_Items item) = true) items.
Proof.
  unfold uniqueFolders.
  rewrite andb_true_iff, bool_decide_eq_true, forallb_forall, Forall_forall.
  apply and_iff_compat_l.
  split; intros H x Hx; specialize (H x);
    rewrite uniqueFoldersBelow_children in *; apply H;
    by apply list_elem_of_In.
Qed.

Lemma attach_unique folderSegments item :
  isGroup item = false ->
  uniqueFolders (Items_Items item) = true ->
  forall current,
    uniqueFolders current = true ->
    uniqueFolders (attach folderSegments item current) = true.
Proof.
  intros Hleaf Hitem.
  induction folderSegments as [|segment rest IH]; intros current Hcur;
    apply uniqueFolders_spec in Hcur as [Hnd Hall]; apply uniqueFolders_spec.
  - simpl. rewrite folderNames_app. unfold folderNames at 2. simpl.
    rewrite Hleaf. simpl. rewrite app_nil_r. split; [done|].
    apply Forall_app. split; [done|]. by constructor.
  - simpl. destruct (findFolder segment current) as [i|] eqn:Efind.
    + split.
      * by rewrite folderNames_alter.
      * apply Forall_alter; [done|]. intros folder _ Hfolder. simpl.
        by apply IH.
    + rewrite folderNames_app. split.
      * apply NoDup_app. split_and!; [done| |].
        -- intros name Hname. unfold folderNames. simpl.
           rewrite list_elem_of_singleton. intros ->.
           by apply findFolder_None_names in Efind.
        -- unfold folderNames. simpl. apply NoDup_singleton.
      * apply Forall_app. split; [done|]. constructor; [|done]. simpl.
        by apply IH.
Qed.

Lemma folderAt_nil folderSegments :
  default [] (folderAt folderSegments []) = [].
Proof. by destruct folderSegments. Qed.

(** After attaching, the group path leads to the folder the leaf was
    appended to: what it held, then the leaf. *)
Lemma folderAt_attach folderSegments item current :
  folderAt folderSegments (attach folderSegments item current)
  = Some (default [] (folderAt folderSegments current) ++ [item]).
Proof.
  revert current.
  induction folderSegments as [|segment rest IH]; intros current; [done|].
  cbn [attach folderAt].
  destruct (findFolder segment current) as [i|] eqn:Efind.
  - destruct (proj1 (findFolder_Some _ _ _) Efind) as (folder & Hi & Hm & _).
    rewrite findFolder_alter, Efind by (intros; apply isFolder_setChildren).
    cbn [mbind option_bind]. rewrite list_lookup_alter_eq, Hi. simpl.
    apply IH.
  - rewrite (findFolder_app_new _ _ _ Efind)
      by (apply isFolder_true; split; [done|done]).
    cbn [mbind option_bind]. rewrite lookup_app_r, Nat.sub_diag by lia.
    simpl. rewrite IH. by rewrite folderAt_nil.
Qed.

(** ** [Register] *)

Lemma Kind_eqb_eq a b : Kind_eqb a b = true <-> a = b.
Proof. split; [by destruct a, b|intros ->; by destruct b]. Qed.

Lemma Register_error fuel rt p spec err p' :
  Register fuel rt p spec = Some (Some err, p') -> p' = p.
Proof.
  unfold Register. intros H.
  destruct (asString (spec !! "method")); [|by injection H].
  destruct (asString (spec !! "path")); [|by injection H].
  destruct (asType (spec !! "inputType")); [|by injection H].
  destruct (negb (Kind_eqb (Kind_of _) KStruct)); [by injection H|].
  destruct (compile _ _ _ _ _ _) as [[e|r]|]; simpl in H; [|done..].
  by injection H.
Qed.

Lemma Register_success fuel rt p spec p' :
  Register fuel rt p spec = Some (None, p') <->
  exists method path inputType request,
    spec !! "method" = Some (any_string method) /\
    spec !! "path" = Some (any_string path) /\
    spec !! "inputType" = Some (any_Type inputType) /\
    let typ := if Kind_eqb (Kind_of inputType) KPtr
               then Elem rt inputType else inputType in
    Kind_of typ = KStruct /\
    compile fuel rt (placeholderDefaults p) method path typ
      = Some (inr request) /\
    p' = setItems p (attachRequest request (Collection_Items (collection p))).
Proof.
  unfold Register. split.
  - intros H.
    destruct (spec !! "method") as [[method| | |]|]; simpl in H; try done.
    destruct (spec !! "path") as [[path| | |]|]; simpl in H; try done.
    destruct (spec !! "inputType") as [[|inputType| |]|]; simpl in H; try done.
    destruct (Kind_eqb (Kind_of _) KStruct) eqn:Ek; simpl in H; [|done].
    destruct (compile _ _ _ _ _ _) as [[e|r]|] eqn:Ec; simpl in H; [done| |done].
    injection H as <-. exists method, path, inputType, r.
    split_and!; try done. by apply Kind_eqb_eq.
  - intros (method & path & inputType & request & -> & -> & -> & Hk & Hc & ->).
    simpl. cbv zeta in Hk, Hc. rewrite Hk, Hc. by simpl.
Qed.

(** ** C3 and C4: the path tree *)


Lemma Register_unique_folders fuel rt p spec r :
  uniqueFolders (Collection_Items (collection p)) = true ->
  Register fuel rt p spec = Some r ->
  uniqueFolders (Collection_Items (collection r.2)) = true.
Proof.
  intros Hinv H. destruct r as [[err|] p'].
  - by rewrite (Register_error _ _ _ _ _ _ H).
  - destruct (proj1 (Register_success _ _ _ _ _) H)
      as (method & path & inputType & request & _ & _ & _ & _ & _ & ->).
    simpl. unfold attachRequest. by apply attach_unique.
Qed.

(** C4. Every run of calls keeps the names of the folders among the
    children of each node distinct. Leaves are not looked at: two of them
    may carry the same name. *)
Theorem run_unique_folders fuel rt calls p p' :
  uniqueFolders (Collection_Items (collection p)) = true ->
  run fuel rt p calls = Some p' ->
  uniqueFolders (Collection_Items (collection p')) = true.
Proof.
  revert p. induction calls as [|c calls IH]; intros p Hinv H; simpl in H.
  - by injection H as <-.
  - destruct c as [key value|key value|spec].
    + by apply (IH (AddVariable p key value)).
    + by apply (IH (AddPlaceholder p key value)).
    + destruct (Register fuel rt p spec) as [r|] eqn:Er; simpl in H; [|done].
      apply (IH r.2); [|done]. by eapply Register_unique_folders.
Qed.

(** C10. A call of [Register] that returns an error leaves the generator
    as it was: variables, tree and defaults. *)
Theorem Register_error_no_change fuel rt p spec err p' :
  Register fuel rt p spec = Some (Some err, p') -> p' = p.
Proof. apply Register_error. Qed.

(** ** C5: zero values *)



(** The README's note on [Age]: the zero value of an [int] field, as a
    number in the JSON body and as a string in a query parameter. *)
Example zero_values_of_Zeroes :
  exists request,
    compile 2 declared ∅ "POST" "/zero" Zeroes = Some (inr request) /\
    Body_Raw (Request_Body request)
    = json.Indent
        ("{" +:+ json.quote "n" +:+ ":0,"
             +:+ json.quote "on" +:+ ":false,"
             +:+ json.quote "point" +:+ ":{" +:+ json.quote "x" +:+ ":0,"
                                     +:+ json.quote "Y" +:+ ":0},"
             +:+ json.quote "tags" +:+ ":[0]}") EmptyString "  " /\
    QueryParam_Value <$> URL_Query (Request_URL request)
    = ["0"; "false"; "[0]";
       "{" +:+ json.quote "x" +:+ ":0," +:+ json.quote "Y" +:+ ":0}"].
Proof. eexists. split; [vm_compute; reflexivity|]. by vm_compute. Qed.

(** ** C6 to C8: the URL *)

(** The loop leaves the segments as they were and makes one variable for
    each segment that begins with a colon, in order. *)
Lemma processSegments_spec pathVariables pathSegments :
  processSegments pathVariables pathSegments
  = (pathSegments,
     segmentVariable pathVariables
       <$> List.filter isVariableSegment pathSegments).
Proof.
  induction pathSegments as [|segment rest IH]; [done|].
  cbn [processSegments List.filter]. rewrite IH.
  change (isVariableSegment segment) with (strings.HasPrefix segment ":").
  destruct (strings.HasPrefix segment ":") eqn:E; [|done].
  rewrite fmap_cons. by rewrite colon_TrimPrefix.
Qed.

Lemma buildRequest_URL method path acc :
  let pathSegments := strings.Split (strings.Trim path "/") "/" in
  Request_URL (buildRequest method path acc)
  = mkURL ("{{base_url}}" +:+ "/" +:+ strings.Join pathSegments "/")
      ["{{base_url}}"] pathSegments (queryParams acc)
      (segmentVariable (pathVariables acc)
         <$> List.filter isVariableSegment pathSegments).
Proof. cbv zeta. unfold buildRequest. by rewrite processSegments_spec. Qed.

(** The path of a request is never empty: line 267 has a last segment to
    read. *)
Lemma buildRequest_Path method path acc :
  URL_Path (Request_URL (buildRequest method path acc)) ≠ [].
Proof. rewrite buildRequest_URL. apply Split_nonempty. Qed.

Lemma urlVariable_unmatched pathVariables key :
  (forall pv, pv ∈ pathVariables -> Variable_Key pv ≠ key) ->
  urlVariable pathVariables key
  = mkVariable key "string" (":" +:+ key) EmptyString.
Proof.
  intros H. unfold urlVariable.
  destruct (List.find _ _) as [pv|] eqn:E; [|done].
  apply List.find_some in E as [Hin Hk].
  apply String.eqb_eq in Hk. by apply list_elem_of_In, H in Hin.
Qed.

(** Every candidate comes from a visited field with a usable [param] tag,
    carries the key of that tag and no description. *)
Lemma paramEntries_from_fields fs vs pv :
  pv ∈ concat (zip_with paramEntries fs vs) ->
  exists field,
    field ∈ fs /\ tagged field "param" = true /\
    Variable_Key pv = keyOf field "param" /\
    Variable_Description pv = EmptyString.
Proof.
  revert vs. induction fs as [|f fs IH]; intros [|v vs]; simpl;
    try by intros ?%elem_of_nil.
  rewrite elem_of_app. intros [H|H].
  - unfold paramEntries in H. destruct (tagged f "param") eqn:Et;
      [|by apply elem_of_nil in H].
    apply list_elem_of_singleton in H as ->.
    exists f. split_and!; [left|done..].
  - destruct (IH _ H) as (field & Hin & ?). exists field. split; [by right|done].
Qed.

Lemma compile_URL fuel rt defaults method path typ request :
  compile fuel rt defaults method path typ = Some (inr request) ->
  exists fields acc vs,
    walkedFields fuel rt typ = Some fields /\
    pathVariables acc = concat (zip_with paramEntries fields vs) /\
    Forall2 (fun f v =>
               slotValue fuel rt f (placeholderOf defaults f) = Some v)
            fields vs /\
    Request_URL request = Request_URL (buildRequest method path acc).
Proof.
  intros H.
  destruct (compile_inv _ _ _ _ _ _ _ H) as (fs & acc & Hfs & _ & Hfold & Hr).
  destruct (fold_pathVariables _ _ _ _ _ _ Hfold) as (vs & Hvs & Hpv).
  symmetry in Hr. apply withBody_URL in Hr as [Hurl _].
  by exists fs, acc, vs.
Qed.

(** C7. The compiled request keeps the path segments as they are written,
    and its raw URL is the base-URL placeholder, a slash and the segments
    joined by slashes. Each segment that begins with a colon gives one URL
    variable, in order; when no visited field has a usable [param] tag with
    the key of the segment, the value of that variable is the segment itself
    and its description is empty. *)
Theorem unmatched_segment_keeps_its_text
    fuel rt defaults method path typ request fields :
  compile fuel rt defaults method path typ = Some (inr request) ->
  walkedFields fuel rt typ = Some fields ->
  let pathSegments := strings.Split (strings.Trim path "/") "/" in
  URL_Path (Request_URL request) = pathSegments /\
  URL_Raw (Request_URL request)
  = "{{base_url}}" +:+ "/" +:+ strings.Join pathSegments "/" /\
  exists variableOf,
    URL_Variables (Request_URL request)
    = variableOf <$> List.filter isVariableSegment pathSegments /\
    forall segment,
      isVariableSegment segment = true ->
      (forall field, field ∈ fields -> tagged field "param" = true ->
         keyOf field "param" ≠ strings.TrimPrefix segment ":") ->
      variableOf segment
      = mkVariable (strings.TrimPrefix segment ":") "string" segment
          EmptyString.
Proof.
  intros H Hfields.
  destruct (compile_URL _ _ _ _ _ _ _ H)
    as (fs & acc & vs & Hfs & Hpv & _ & Hurl).
  rewrite Hfields in Hfs. injection Hfs as <-.
  rewrite Hurl, buildRequest_URL. cbv zeta. simpl. split_and!; [done..|].
  exists (segmentVariable (pathVariables acc)). split; [done|].
  intros segment Hseg Hnone. unfold segmentVariable.
  rewrite urlVariable_unmatched.
  - by rewrite colon_TrimPrefix.
  - intros pv Hin Hkey. rewrite Hpv in Hin.
    destruct (paramEntries_from_fields _ _ _ Hin) as (f & Hf & Ht & Hk & _).
    apply (Hnone f Hf Ht). congruence.
Qed.

(** C6. Registering [GET /users/:userId] with a struct of one exported
    field tagged [param:userId] and [example:abc], whatever the field is
    called and whatever its type and the state of the generator are. *)
Theorem get_user_by_id fuel rt p name ty :
  let inputType :=
    Struct [mkStructField name EmptyString ty
              [("param", "userId"); ("example", "abc")] false] in
  exists request,
    Register (S fuel) rt p (specOf "GET" "/users/:userId" inputType)
    = Some (None,
            setItems p
              (attachRequest request (Collection_Items (collection p)))) /\
    compile (S fuel) rt (placeholderDefaults p) "GET" "/users/:userId"
      inputType = Some (inr request) /\
    URL_Path (Request_URL request) = ["users"; ":userId"] /\
    URL_Variables (Request_URL request)
    = [mkVariable "userId" "string" "abc" EmptyString] /\
    URL_Raw (Request_URL request) = "{{base_url}}/users/:userId".
Proof.
  cbv zeta. eexists. split_and!.
  2: { vm_compute. reflexivity. }
  - apply Register_success. do 4 eexists.
    split_and!; first [done | by vm_compute].
  - done.
  - done.
  - done.
Qed.

Lemma url_variable_description fuel rt defaults method path typ request v :
  compile fuel rt defaults method path typ = Some (inr request) ->
  v ∈ URL_Variables (Request_URL request) ->
  Variable_Description v = EmptyString.
Proof.
  intros H Hv.
  destruct (compile_URL _ _ _ _ _ _ _ H)
    as (fs & acc & vs & _ & Hpv & _ & Hurl).
  rewrite Hurl, buildRequest_URL in Hv. cbv zeta in Hv. simpl in Hv.
  apply list_elem_of_fmap in Hv as (segment & -> & _).
  unfold segmentVariable, urlVariable.
  destruct (List.find _ _) as [pv|] eqn:E; [|done].
  apply List.find_some in E as [Hin _]. simpl.
  apply list_elem_of_In in Hin. rewrite Hpv in Hin.
  by destruct (paramEntries_from_fields _ _ _ Hin) as (_ & _ & _ & _ & ?).
Qed.

(** The first visited field with a usable [param] tag of the key decides
    the candidate the loop of lines 218 to 224 stops at: its value is the
    string of the slot value of that field, and it has no description. *)
Lemma find_candidate fuel rt defaults key before field after vs :
  Forall2 (fun f v =>
             slotValue fuel rt f (placeholderOf defaults f) = Some v)
          (before ++ field :: after) vs ->
  (forall f, f ∈ before -> tagged f "param" = true ->
             keyOf f "param" ≠ key) ->
  tagged field "param" = true ->
  keyOf field "param" = key ->
  exists v,
    slotValue fuel rt field (placeholderOf defaults field) = Some v /\
    List.find (fun pv => String.eqb (Variable_Key pv) key)
      (concat (zip_with paramEntries (before ++ field :: after) vs))
    = Some (mkVariable key "string" (fmt.Sprint v) EmptyString).
Proof.
  revert vs. induction before as [|g before IH]; intros vs HF Hbefore Ht Hk.
  - apply Forall2_cons_inv_l in HF as (v & vs' & Hv & _ & ->).
    exists v. split; [done|]. cbn [app zip_with concat].
    unfold paramEntries at 1. rewrite Ht, Hk. cbn [app List.find Variable_Key].
    by rewrite String.eqb_refl.
  - apply Forall2_cons_inv_l in HF as (w & vs' & _ & HF & ->).
    destruct (IH vs' HF) as (v & Hv & Hfind); [|done..|].
    { intros f Hin. apply Hbefore. by right. }
    exists v. split; [done|]. cbn [app zip_with concat].
    unfold paramEntries at 1. destruct (tagged g "param") eqn:Eg; [|done].
    cbn [app List.find Variable_Key].
    destruct (String.eqb_spec (keyOf g "param") key) as [E|_]; [|done].
    by destruct (Hbefore g (list_elem_of_here _ _) Eg).
Qed.

(** The URL variable of a segment whose key a visited field carries in a
    usable [param] tag: the placeholder of the first such field, as a
    string. *)
Lemma url_variable_matched
    fuel rt defaults method path typ request before field after segment :
  compile fuel rt defaults method path typ = Some (inr request) ->
  walkedFields fuel rt typ = Some (before ++ field :: after) ->
  (forall f, f ∈ before -> tagged f "param" = true ->
             keyOf f "param" ≠ strings.TrimPrefix segment ":") ->
  tagged field "param" = true ->
  keyOf field "param" = strings.TrimPrefix segment ":" ->
  exists v vars,
    slotValue fuel rt field (placeholderOf defaults field) = Some v /\
    URL_Variables (Request_URL request)
    = vars <$> List.filter isVariableSegment
                 (strings.Split (strings.Trim path "/") "/") /\
    vars segment
    = mkVariable (strings.TrimPrefix segment ":") "string" (fmt.Sprint v)
        EmptyString.
Proof.
  intros H Hfields Hbefore Ht Hk.
  destruct (compile_URL _ _ _ _ _ _ _ H)
    as (fs & acc & vs & Hfs & Hpv & HF & Hurl).
  rewrite Hfields in Hfs. injection Hfs as <-.
  destruct (find_candidate _ _ _ _ _ _ _ _ HF Hbefore Ht Hk)
    as (v & Hv & Hfind).
  exists v, (segmentVariable (pathVariables acc)). split_and!; [done| |].
  - by rewrite Hurl, buildRequest_URL.
  - unfold segmentVariable, urlVariable. by rewrite Hpv, Hfind.
Qed.

(** C8, on the README's [GetUserRequest]: the URL variable of [:userId]
    takes the placeholder of the field tagged [param:userId], and its
    description is empty although the field has a [description] tag. *)
Theorem path_variable_description_dropped :
  exists request field,
    compile 1 noTypes ∅ "GET" "/users/:userId" GetUserRequest
    = Some (inr request) /\
    fieldsOf GetUserRequest !! 0 = Some field /\
    Get (Tag field) "param" = "userId" /\
    Get (Tag field) "description" = "ID of the user to retrieve" /\
    URL_Variables (Request_URL request)
    = [mkVariable "userId" "string" (placeholderOf ∅ field) EmptyString].
Proof. do 2 eexists. split_and!; by vm_compute. Qed.

Lemma body_mode_first_match_witness :
  compile 1 noTypes ∅ "POST" "/items" FormAndJson
  = Some (inr formAndJsonRequest) /\
  Body_Mode (Request_Body formAndJsonRequest) = "formdata" /\
  Request_Header formAndJsonRequest
  = [mkHeader "Content-Type" "multipart/form-data"] /\
  Body_Raw (Request_Body formAndJsonRequest) = EmptyString.
Proof.
  assert (compile 1 noTypes ∅ "POST" "/items" FormAndJson
          = Some (inr formAndJsonRequest)) as H by (vm_compute; reflexivity).
  split; [exact H|].
  destruct (body_mode_first_match _ _ _ _ _ _ _ H)
    as (fields & acc & Hfields & _ & Hbody).
  vm_compute in Hfields. injection Hfields as <-.
  vm_compute in Hbody. destruct Hbody as (Hmode & _ & Hheader & Hraw & _).
  split_and!; [exact Hmode|exact Hheader|exact Hraw].
Defined.

(** ** Fuel

    A result does not depend on the fuel that was enough to reach it. *)

Lemma TypeZeroValue_fuel n m rt t preferString v :
  TypeZeroValue n rt t preferString = Some v -> n <= m ->
  TypeZeroValue m rt t preferString = Some v.
Proof.
  revert m t v. induction n as [|n IH]; intros m t v H Hle; [done|].
  destruct m as [|m]; [lia|]. simpl in *.
  destruct (Kind_eqb (Kind_of t) KPtr); [apply IH; [done|lia]|].
  destruct (Kind_eqb (Kind_of t) KStruct && preferString); [done|].
  destruct (Kind_eqb (Kind_of t) KSlice); [|done].
  destruct (TypeZeroValue n rt _ _) as [e|] eqn:E; simpl in H; [|done].
  by rewrite (IH m _ e E) by lia.
Qed.

Lemma registerField_fuel n m rt defaults field acc acc' :
  registerField n rt defaults field acc = Some acc' -> n <= m ->
  registerField m rt defaults field acc = Some acc'.
Proof.
  unfold registerField, jsonValue, slotValue. intros H Hle.
  destruct (unset (placeholderOf defaults field)); [|done].
  destruct (TypeZeroValue n rt (Type' field) true) as [zs|] eqn:Es; cycle 1.
  { destruct (negb (unset (Get (Tag field) "json"))); simpl in H;
      [destruct (TypeZeroValue n rt (Type' field) false); simpl in H|]; done. }
  rewrite (TypeZeroValue_fuel _ _ _ _ _ _ Es Hle).
  destruct (negb (unset (Get (Tag field) "json"))); [|done].
  destruct (TypeZeroValue n rt (Type' field) false) as [zj|] eqn:Ej;
    simpl in H; [|done].
  by rewrite (TypeZeroValue_fuel _ _ _ _ _ _ Ej Hle).
Qed.

Section fuel.
Context {S : Type} (rt : TypeTable) (fn fn' : StructField -> S -> option S).
Hypothesis fn_fn' : forall f s s', fn f s = Some s' -> fn' f s = Some s'.

Lemma walkFields_fuel (walk walk' : Type_ -> S -> option S) fs :
  (forall ft s s', walk ft s = Some s' -> walk' ft s = Some s') ->
  forall s s', walkFields walk rt fn fs s = Some s' ->
               walkFields walk' rt fn' fs s = Some s'.
Proof.
  intros Hw. induction fs as [|f rest IH]; intros s s' H; simpl in *; [done|].
  destruct (negb (isEmpty (PkgPath f))); [by apply IH|].
  destruct (Anonymous f && Kind_eqb (Kind_of _) KStruct).
  - destruct (walk _ s) as [s1|] eqn:E; simpl in H; [|done].
    rewrite (Hw _ _ _ E). simpl. by apply IH.
  - destruct (fn f s) as [s1|] eqn:E; simpl in H; [|done].
    rewrite (fn_fn' _ _ _ E). simpl. by apply IH.
Qed.

Lemma walkStructFields_fuel n m t s s' :
  walkStructFields n rt t fn s = Some s' -> n <= m ->
  walkStructFields m rt t fn' s = Some s'.
Proof.
  revert m t s s'. induction n as [|n IH]; intros m t s s' H Hle; [done|].
  destruct m as [|m]; [lia|]. simpl in *.
  destruct (negb (Kind_eqb (Kind_of _) KStruct)); [done|].
  eapply walkFields_fuel; [|exact H].
  intros ft s1 s2 H1. apply IH; [done|lia].
Qed.

End fuel.

Lemma compile_fuel n m rt defaults method path typ r :
  compile n rt defaults method path typ = Some r -> n <= m ->
  compile m rt defaults method path typ = Some r.
Proof.
  unfold compile. intros H Hle.
  destruct (walkStructFields n _ _ _ _) as [acc|] eqn:E; simpl in H; [|done].
  rewrite (walkStructFields_fuel rt _ (registerField m rt defaults)
             (fun f s s' H => registerField_fuel n m _ _ f s s' H Hle)
             _ _ _ _ _ E Hle).
  done.
Qed.

Lemma Register_fuel n m rt p spec r :
  Register n rt p spec = Some r -> n <= m -> Register m rt p spec = Some r.
Proof.
  unfold Register. intros H Hle.
  destruct (asString (spec !! "method")); [|done].
  destruct (asString (spec !! "path")); [|done].
  destruct (asType (spec !! "inputType")); [|done].
  destruct (negb (Kind_eqb (Kind_of _) KStruct)); [done|].
  destruct (compile n _ _ _ _ _) as [c|] eqn:E; simpl in H; [|done].
  by rewrite (compile_fuel _ _ _ _ _ _ _ _ E Hle).
Qed.

(** A struct that embeds a pointer to itself: the walk never comes back,
    and neither does [Register]. *)
Lemma self_embedding_walk {S : Type} fuel
    (fn : StructField -> S -> option S) s :
  walkStructFields fuel declared (declared 0) fn s = None.
Proof.
  induction fuel as [|fuel IH]; [done|]. cbn [declared] in IH.
  cbn [walkStructFields declared Kind_of Kind_eqb negb fieldsOf].
  cbn [walkFields PkgPath isEmpty negb Type' Anonymous Kind_of Kind_eqb Elem
         andb declared].
  by rewrite IH.
Qed.

Remark self_embedding_Register fuel p method path :
  Register fuel declared p (specOf method path (declared 0)) = None.
Proof.
  unfold Register, specOf.
  rewrite lookup_insert_eq, lookup_insert_ne, lookup_insert_eq by done.
  rewrite !lookup_insert_ne, lookup_insert_eq by done.
  cbn [asString asType declared Kind_of Kind_eqb negb].
  unfold compile. by rewrite self_embedding_walk.
Qed.

(** ** Termination

    On a table of declared types that has a measure, the walk,
    [TypeZeroValue] and [Register] come back. *)

Section measured.
Context (rt : TypeTable) (m : Type_ -> nat) (Hm : measured rt m).

Lemma measured_deref t :
  m (if Kind_eqb (Kind_of t) KPtr then Elem rt t else t) <= m t.
Proof.
  destruct Hm as (Hptr & _ & _).
  destruct t; simpl; try lia. specialize (Hptr elem). lia.
Qed.

Lemma TypeZeroValue_total fuel t preferString :
  m t < fuel -> is_Some (TypeZeroValue fuel rt t preferString).
Proof.
  destruct Hm as (Hptr & Hslice & _).
  revert t. induction fuel as [|fuel IH]; intros t Hlt; [lia|].
  cbn [TypeZeroValue].
  destruct t; cbn [Kind_of Kind_eqb andb Elem]; try by eexists.
  - apply IH. specialize (Hptr elem). lia.
  - destruct (IH (rt elem)) as [v ->]; [|by eexists].
    specialize (Hslice elem). lia.
  - destruct preferString; [|by eexists].
    destruct (json.Marshal _ _); by eexists.
Qed.

Lemma registerField_total fuel defaults field acc :
  m (Type' field) < fuel ->
  is_Some (registerField fuel rt defaults field acc).
Proof.
  intros Hlt. unfold registerField, jsonValue, slotValue.
  destruct (TypeZeroValue_total fuel (Type' field) false Hlt) as [zj ->].
  destruct (TypeZeroValue_total fuel (Type' field) true Hlt) as [zs ->].
  destruct (unset (placeholderOf defaults field)),
           (negb (unset (Get (Tag field) "json"))); by eexists.
Qed.

Lemma walkFields_total {S : Type} (walk : Type_ -> S -> option S)
    (fn : StructField -> S -> option S) bound fs :
  (forall ft s, m ft < bound -> is_Some (walk ft s)) ->
  (forall f s, m (Type' f) < bound -> is_Some (fn f s)) ->
  (forall f, f ∈ fs -> m (Type' f) < bound) ->
  forall s, is_Some (walkFields walk rt fn fs s).
Proof.
  intros Hwalk Hfn. induction fs as [|f rest IH]; intros Hfs s; simpl.
  - by eexists.
  - assert (m (Type' f) < bound) as Hf by (apply Hfs; left).
    assert (forall f', f' ∈ rest -> m (Type' f') < bound) as Hrest
      by (intros f' Hin; apply Hfs; by right).
    destruct (negb (isEmpty (PkgPath f))); [by apply IH|].
    destruct (Anonymous f && Kind_eqb (Kind_of _) KStruct).
    + destruct (Hwalk (if Kind_eqb (Kind_of (Type' f)) KPtr
                       then Elem rt (Type' f) else Type' f) s) as [s' ->].
      { pose proof (measured_deref (Type' f)). lia. }
      simpl. by apply IH.
    + destruct (Hfn f s Hf) as [s' ->]. simpl. by apply IH.
Qed.

Lemma walkStructFields_total {S : Type} (fn : StructField -> S -> option S)
    fuel t :
  m t < fuel ->
  (forall f s, m (Type' f) < m t -> is_Some (fn f s)) ->
  forall s, is_Some (walkStructFields fuel rt t fn s).
Proof.
  revert t. induction fuel as [|fuel IH]; intros t Hlt Hfn s; [lia|].
  cbn [walkStructFields].
  pose proof (measured_deref t) as Hle.
  destruct (if Kind_eqb (Kind_of t) KPtr then Elem rt t else t)
    as [| | | | | | | | | | | | |fs] eqn:Et;
    cbn [Kind_of Kind_eqb negb fieldsOf]; try by eexists.
  destruct Hm as (_ & _ & Hfields).
  apply (walkFields_total _ _ (m (Struct fs))).
  - intros ft s' Hft. apply IH; [lia|].
    intros f s'' Hf. apply Hfn. lia.
  - intros f s' Hf. apply Hfn. lia.
  - intros f Hin. by apply Hfields.
Qed.

Lemma compile_total fuel defaults method path typ :
  m typ < fuel -> is_Some (compile fuel rt defaults method path typ).
Proof.
  intros Hlt. unfold compile.
  destruct (walkStructFields_total (registerField fuel rt defaults)
              fuel typ Hlt) with (s := noParams) as [acc ->];
    [|by eexists].
  intros f s Hf. apply registerField_total. lia.
Qed.

(** With enough fuel [Register] returns, and more fuel does not change what
    it returns. *)
Lemma Register_total p spec :
  exists n r, forall fuel, n <= fuel -> Register fuel rt p spec = Some r.
Proof.
  destruct (asType (spec !! "inputType")) as [inputType|] eqn:Et.
  - assert (is_Some (Register (S (m inputType)) rt p spec)) as [r Hr].
    { unfold Register. rewrite Et.
      destruct (asString (spec !! "method")); [|by eexists].
      destruct (asString (spec !! "path")); [|by eexists].
      destruct (negb (Kind_eqb (Kind_of _) KStruct)); [by eexists|].
      destruct (compile_total (S (m inputType)) (placeholderDefaults p) s s0
                  (if Kind_eqb (Kind_of inputType) KPtr
                   then Elem rt inputType else inputType)) as [c ->].
      { pose proof (measured_deref inputType). lia. }
      simpl. destruct c; by eexists. }
    exists (S (m inputType)), r. intros fuel Hle. by apply (Register_fuel _ _ _ _ _ _ Hr).
  - eexists 0, _. intros fuel _. unfold Register. rewrite Et.
    by destruct (asString (spec !! "method")), (asString (spec !! "path")).
Qed.

End measured.

Lemma typeSize_field fs f : f ∈ fs -> typeSize (Type' f) < typeSize (Struct fs).
Proof.
  cbn [typeSize]. induction fs as [|g fs IH]; [by intros ?%elem_of_nil|].
  intros [->|Hin]%elem_of_cons.
  - destruct g; simpl; lia.
  - specialize (IH Hin). destruct g; simpl in *; lia.
Qed.

Lemma noTypes_measured : measured noTypes typeSize.
Proof. split_and!; [by simpl; lia..|apply typeSize_field]. Qed.

(** ** C9: the errors of [Register] *)

Lemma compile_error fuel rt defaults method path typ err :
  compile fuel rt defaults method path typ = Some (inl err) ->
  err = fmt_Errorf "failed to marshal json body: %w".
Proof.
  unfold compile. intros H.
  destruct (walkStructFields _ _ _ _ _) as [acc|]; simpl in H; [|done].
  injection H as H. unfold withBody in H.
  destruct (negb (length _ =? 0)); [done|].
  destruct (negb (size _ =? 0)); [|done].
  destruct (json.MarshalIndent _ _ _ _); [done|]. by injection H.
Qed.

Lemma compile_returns fuel rt defaults method path typ acc :
  walkStructFields fuel rt typ (registerField fuel rt defaults) noParams
    = Some acc ->
  is_Some (json.MarshalIndent rt (jsonParams acc) EmptyString "  ") ->
  exists request,
    compile fuel rt defaults method path typ = Some (inr request).
Proof.
  intros Hwalk [b Hb]. unfold compile. rewrite Hwalk. simpl.
  unfold withBody. rewrite Hb.
  destruct (negb (length _ =? 0)); [by eexists|].
  destruct (negb (size _ =? 0)); by eexists.
Qed.

(** C9. [Register] returns one of its two invalid-spec errors exactly when
    the spec map is malformed. For a spec map that is not malformed, when
    the walk over the fields of the input type comes back and the JSON
    object it gathered has an encoding, [Register] returns no error, with
    that fuel and with any more. The walk does come back whenever the table
    of declared types has a measure. *)
Theorem Register_invalid_spec_iff_malformed :
  (forall fuel rt p spec,
     malformed rt spec ->
     exists msg, Register fuel rt p spec = Some (Some (errors_New msg), p)) /\
  (forall fuel rt p spec msg p',
     Register fuel rt p spec = Some (Some (errors_New msg), p') ->
     malformed rt spec) /\
  (forall n rt p spec method path inputType acc,
     ~ malformed rt spec ->
     spec !! "method" = Some (any_string method) ->
     spec !! "path" = Some (any_string path) ->
     spec !! "inputType" = Some (any_Type inputType) ->
     walkStructFields n rt
       (if Kind_eqb (Kind_of inputType) KPtr
        then Elem rt inputType else inputType)
       (registerField n rt (placeholderDefaults p)) noParams = Some acc ->
     is_Some (json.MarshalIndent rt (jsonParams acc) EmptyString "  ") ->
     exists p', forall fuel, n <= fuel ->
                             Register fuel rt p spec = Some (None, p')) /\
  (forall rt m defaults inputType,
     measured rt m ->
     let typ := if Kind_eqb (Kind_of inputType) KPtr
                then Elem rt inputType else inputType in
     let n := S (m inputType) in
     is_Some (walkStructFields n rt typ (registerField n rt defaults)
                noParams)).
Proof.
  split_and!.
  - intros fuel rt p spec Hbad. unfold Register.
    destruct (spec !! "method") as [[method| | |]|] eqn:Em; simpl;
      try by eexists.
    destruct (spec !! "path") as [[path| | |]|] eqn:Ep; simpl;
      try by eexists.
    destruct (spec !! "inputType") as [[|inputType| |]|] eqn:Et; simpl;
      try by eexists.
    destruct Hbad as [H|[H|[H|(t & Ht & H)]]];
      [by destruct (H method)|by destruct (H path)|by destruct (H inputType)|].
    rewrite Et in Ht. injection Ht as <-.
    destruct (Kind_eqb (Kind_of _) KStruct) eqn:Ek; simpl; [|by eexists].
    by apply Kind_eqb_eq in Ek.
  - intros fuel rt p spec msg p' H. unfold Register in H. unfold malformed.
    destruct (spec !! "method") as [[method| | |]|] eqn:Em; simpl in H;
      try (left; congruence).
    destruct (spec !! "path") as [[path| | |]|] eqn:Ep; simpl in H;
      try (right; left; congruence).
    destruct (spec !! "inputType") as [[|inputType| |]|] eqn:Et; simpl in H;
      try (right; right; left; congruence).
    right. right. right. exists inputType. split; [done|].
    destruct (Kind_eqb (Kind_of _) KStruct) eqn:Ek; simpl in H.
    + destruct (compile _ _ _ _ _ _) as [[e|r]|] eqn:Ec; simpl in H;
        [|done..].
      apply compile_error in Ec as ->. done.
    + intros Hk. apply Kind_eqb_eq in Hk. congruence.
  - intros n rt p spec method path inputType acc Hok Hm Hp Ht Hwalk Henc.
    destruct (compile_returns _ _ _ method path _ _ Hwalk Henc)
      as [request Hc].
    eexists. intros fuel Hle. apply (Register_fuel n); [|done].
    apply Register_success.
    exists method, path, inputType, request. split_and!; [done..|].
    cbv zeta. split_and!; [|done..].
    destruct (Kind_of (if Kind_eqb (Kind_of inputType) KPtr
                       then Elem rt inputType else inputType)) eqn:Ek;
      try done;
      exfalso; apply Hok; right; right; right; exists inputType;
      (split; [done|]); by rewrite Ek.
  - intros rt m defaults inputType Hm. cbv zeta.
    pose proof (measured_deref rt m Hm inputType) as Hle.
    apply (walkStructFields_total rt m Hm); [lia|].
    intros f s Hf. apply (registerField_total rt m Hm). lia.
Qed.

(** ** Witnesses and samples *)

Lemma run_unique_folders_witness :
  uniqueFolders (Collection_Items (collection sampleGen)) = true /\
  run 1 noTypes sampleGen sampleCalls = Some afterSampleCalls /\
  uniqueFolders (Collection_Items (collection afterSampleCalls)) = true.
Proof.
  assert (uniqueFolders (Collection_Items (collection sampleGen)) = true)
    as H0 by reflexivity.
  assert (run 1 noTypes sampleGen sampleCalls = Some afterSampleCalls)
    as H1 by (vm_compute; reflexivity).
  split_and!; [exact H0|exact H1|].
  exact (run_unique_folders 1 noTypes sampleCalls sampleGen afterSampleCalls
           H0 H1).
Defined.

Lemma unmatched_segment_keeps_its_text_witness :
  compile 1 noTypes ∅ "GET" "/orgs/:orgId/users/:userId" GetUserRequest
  = Some (inr unmatchedRequest) /\
  walkedFields 1 noTypes GetUserRequest = Some (fieldsOf GetUserRequest) /\
  URL_Path (Request_URL unmatchedRequest)
  = ["orgs"; ":orgId"; "users"; ":userId"] /\
  URL_Raw (Request_URL unmatchedRequest)
  = "{{base_url}}/orgs/:orgId/users/:userId" /\
  URL_Variables (Request_URL unmatchedRequest) !! 0
  = Some (mkVariable "orgId" "string" ":orgId" EmptyString).
Proof.
  assert (compile 1 noTypes ∅ "GET" "/orgs/:orgId/users/:userId"
            GetUserRequest = Some (inr unmatchedRequest)) as H1
    by (vm_compute; reflexivity).
  assert (walkedFields 1 noTypes GetUserRequest
          = Some (fieldsOf GetUserRequest)) as H2 by (vm_compute; reflexivity).
  split_and!; [exact H1|exact H2|..];
    destruct (unmatched_segment_keeps_its_text _ _ _ _ _ _ _ _ H1 H2)
      as (Hpath & Hraw & variableOf & Hvars & Hun).
  - exact Hpath.
  - exact Hraw.
  - rewrite Hvars. cbn [strings.Split]. simpl.
    rewrite (Hun ":orgId"); [reflexivity|reflexivity|].
    intros field Hin Htag. vm_compute in Hin.
    repeat (apply elem_of_cons in Hin as [->|Hin]; [by vm_compute in Htag || by vm_compute|]).
    by apply elem_of_nil in Hin.
Defined.

Lemma Register_error_no_change_witness :
  Register 1 noTypes sampleGen (specOf "POST" "/events" WithChannel)
  = Some (Some (fmt_Errorf "failed to marshal json body: %w"),
          afterFailedRegister) /\
  afterFailedRegister = sampleGen.
Proof.
  assert (Register 1 noTypes sampleGen (specOf "POST" "/events" WithChannel)
          = Some (Some (fmt_Errorf "failed to marshal json body: %w"),
                  afterFailedRegister)) as H by (vm_compute; reflexivity).
  split; [exact H|].
  exact (Register_error_no_change _ _ _ _ _ _ H).
Defined.

(** The tree after the sample run: at the root a leaf and a folder that are
    both called [users]; the route registered twice has left two leaves
    called [picture] in the folder [users/:userId]. *)
Example sample_tree_shape :
  let root := Collection_Items (collection afterSampleCalls) in
  Items_Name <$> root = ["users"; "users"] /\
  folderNames root = ["users"] /\
  (List.map Items_Name <$> folderAt ["users"] root)
  = Some [":userId"; ":userId"] /\
  (folderNames <$> folderAt ["users"] root) = Some [":userId"] /\
  (List.map Items_Name <$> folderAt ["users"; ":userId"] root)
  = Some ["picture"; "picture"] /\
  (folderNames <$> folderAt ["users"; ":userId"] root) = Some [].
Proof. by vm_compute. Qed.

(** The README's routes: a JSON body for [POST /users], a form body for
    the upload, with the file field after the text field. *)
Example readme_bodies :
  compile 1 noTypes ∅ "POST" "/users" CreateUserRequest
  = Some (inr createUserRequest) /\
  Body_Mode (Request_Body createUserRequest) = "raw" /\
  Request_Header createUserRequest
  = [mkHeader "Content-Type" "application/json"] /\
  compile 1 noTypes ∅ "POST" "/users/:userId/picture" UploadPictureRequest
  = Some (inr uploadPictureRequest) /\
  Body_Mode (Request_Body uploadPictureRequest) = "formdata" /\
  Body_FormData (Request_Body uploadPictureRequest)
  = Some [mkFormParam "description" "My profile picture" "text"
            "Optional description for the image";
          mkFormParam "profile_pic" EmptyString "file"
            "The profile picture file to upload"].
Proof. by vm_compute. Qed.

(** The three error returns of [Register], on a fresh generator. *)
Example Register_errors :
  Register 0 noTypes sampleGen
    (<["method" := any_int 1]> (specOf "GET" "/users" GetUserRequest))
  = Some (Some (errors_New
            "invalid spec: must contain method, path, and inputType"),
          sampleGen) /\
  Register 0 noTypes sampleGen (specOf "GET" "/users" (Slice 0))
  = Some (Some (errors_New
            "invalid object type: must be a struct or pointer to struct"),
          sampleGen) /\
  Register 1 noTypes sampleGen (specOf "POST" "/events" WithChannel)
  = Some (Some (fmt_Errorf "failed to marshal json body: %w"), sampleGen).
Proof. by vm_compute. Qed.

(** * Further properties *)

(** ** The fields the walk hands over *)

Lemma collect_shift fuel rt t l :
  walkStructFields fuel rt t collect l
  = (app l) <$> walkedFields fuel rt t.
Proof.
  unfold walkedFields.
  destruct (walkStructFields fuel rt t collect l) as [l'|] eqn:E1.
  - destruct (walkStructFields_agrees rt collect fuel _ _ _ E1)
      as (fs & -> & Hall & _).
    by rewrite (Hall []).
  - destruct (walkStructFields fuel rt t collect []) as [fs|] eqn:E2; [|done].
    destruct (walkStructFields_agrees rt collect fuel _ _ _ E2)
      as (fs' & _ & Hall & _).
    by rewrite (Hall l) in E1.
Qed.

Lemma walkFields_app {S : Type} (walk : Type_ -> S -> option S) rt
    (fn : StructField -> S -> option S) fs1 fs2 s :
  walkFields walk rt fn (fs1 ++ fs2) s
  = walkFields walk rt fn fs1 s ≫= walkFields walk rt fn fs2.
Proof.
  revert s. induction fs1 as [|f fs1 IH]; intros s; [done|].
  cbn [app walkFields].
  destruct (negb (isEmpty (PkgPath f))); [apply IH|].
  destruct (Anonymous f && Kind_eqb (Kind_of _) KStruct).
  - destruct (walk _ s) as [s'|]; simpl; [apply IH|done].
  - destruct (fn f s) as [s'|]; simpl; [apply IH|done].
Qed.

Lemma walkFields_collect_shift fuel rt fs l :
  walkFields (fun ft s => walkStructFields fuel rt ft collect s) rt collect fs l
  = (app l)
      <$> walkFields (fun ft s => walkStructFields fuel rt ft collect s)
            rt collect fs [].
Proof.
  revert l. induction fs as [|f fs IH]; intros l.
  - simpl. by rewrite app_nil_r.
  - cbn [walkFields].
    destruct (negb (isEmpty (PkgPath f))); [apply IH|].
    destruct (Anonymous f && Kind_eqb (Kind_of _) KStruct).
    + rewrite (collect_shift fuel rt _ l), (collect_shift fuel rt _ []).
      destruct (walkedFields fuel rt _) as [l2|]; simpl; [|done].
      rewrite (IH (l ++ l2)), (IH l2).
      destruct (walkFields _ rt collect fs []) as [l3|]; simpl; [|done].
      by rewrite app_assoc.
    + change (collect f l) with (Some (l ++ [f])).
      change (collect f []) with (Some [f]).
      cbn [mbind option_bind].
      rewrite (IH (l ++ [f])), (IH [f]).
      destruct (walkFields _ rt collect fs []) as [l3|]; simpl; [|done].
      by rewrite <- app_assoc.
Qed.

Lemma walkFields_handed_over walk rt fs l l' :
  (forall ft a a', walk ft a = Some a' ->
     Forall (fun f => isExported f && negb (isEmbeddedStruct rt f) = true) a ->
     Forall (fun f => isExported f && negb (isEmbeddedStruct rt f) = true) a') ->
  walkFields walk rt collect fs l = Some l' ->
  Forall (fun f => isExported f && negb (isEmbeddedStruct rt f) = true) l ->
  Forall (fun f => isExported f && negb (isEmbeddedStruct rt f) = true) l'.
Proof.
  intros Hwalk. revert l. induction fs as [|f fs IH]; intros l H Hl.
  - by injection H as <-.
  - cbn [walkFields] in H. unfold isExported, isEmbeddedStruct, deref in *.
    destruct (isEmpty (PkgPath f)) eqn:Ee; simpl in H; [|by eapply IH].
    destruct (Anonymous f && Kind_eqb (Kind_of _) KStruct) eqn:Ea.
    + destruct (walk _ l) as [l1|] eqn:E1; simpl in H; [|done].
      eapply IH; [exact H|]. by eapply Hwalk.
    + unfold collect in H at 1. simpl in H. eapply IH; [exact H|].
      apply Forall_app. split; [done|]. constructor; [|done].
      by rewrite Ee, Ea.
Qed.

Lemma walkStructFields_handed_over fuel rt t l l' :
  walkStructFields fuel rt t collect l = Some l' ->
  Forall (fun f => isExported f && negb (isEmbeddedStruct rt f) = true) l ->
  Forall (fun f => isExported f && negb (isEmbeddedStruct rt f) = true) l'.
Proof.
  revert t l l'. induction fuel as [|fuel IH]; intros t l l' H Hl; [done|].
  cbn [walkStructFields] in H.
  destruct (negb (Kind_eqb (Kind_of _) KStruct)); [by injection H as <-|].
  eapply walkFields_handed_over; [|exact H|exact Hl].
  intros ft a a'. apply IH.
Qed.

(** The callback sees exported fields only, and never an embedded struct
    or an embedded pointer to a struct. *)
Theorem walk_hands_over_exported_plain_fields fuel rt t fields :
  walkedFields fuel rt t = Some fields ->
  Forall (fun f => isExported f = true /\ isEmbeddedStruct rt f = false)
         fields.
Proof.
  intros H.
  pose proof (walkStructFields_handed_over _ _ _ _ _ H (Forall_nil_2 _)) as HF.
  eapply Forall_impl; [exact HF|]. intros f Hf. simpl in Hf.
  apply andb_true_iff in Hf as [? Hn]. by apply negb_true_iff in Hn.
Qed.

Lemma walkFields_flat walk rt fs l :
  Forall (fun f => isExported f = true -> isEmbeddedStruct rt f = false) fs ->
  walkFields walk rt collect fs l = Some (l ++ List.filter isExported fs).
Proof.
  intros H. revert l. induction H as [|f fs Hf _ IH]; intros l.
  - simpl. by rewrite app_nil_r.
  - cbn [walkFields List.filter]. unfold isExported, isEmbeddedStruct, deref in *.
    destruct (isEmpty (PkgPath f)); simpl; [|apply IH].
    rewrite (Hf eq_refl). unfold collect at 1. simpl.
    by rewrite IH, <- app_assoc.
Qed.

(** A struct, or a pointer to a struct, none of whose exported fields
    embeds a struct: the callback sees the exported fields, all of them, in
    the order of their declaration. *)
Theorem walk_of_struct_without_embedding fuel rt t fs :
  deref rt t = Struct fs ->
  Forall (fun f => isExported f = true -> isEmbeddedStruct rt f = false) fs ->
  walkedFields (S fuel) rt t = Some (List.filter isExported fs).
Proof.
  intros Ht Hfs. unfold walkedFields. cbn [walkStructFields].
  unfold deref in Ht. rewrite Ht. cbn [Kind_of Kind_eqb negb fieldsOf].
  by rewrite walkFields_flat.
Qed.

Lemma walkStructFields_struct {S : Type} fuel rt fs
    (fn : StructField -> S -> option S) s :
  walkStructFields (Datatypes.S fuel) rt (Struct fs) fn s
  = walkFields (fun ft s' => walkStructFields fuel rt ft fn s') rt fn fs s.
Proof. done. Qed.

(** An exported embedded struct, by value or through a pointer, stands for
    its own fields at the place where it is declared: the fields before it,
    then the fields of the embedded struct, then the fields after it. *)
Theorem walk_flattens_embedded_struct fuel rt before f after inner :
  isExported f = true ->
  Anonymous f = true ->
  deref rt (Type' f) = Struct inner ->
  walkedFields (S (S fuel)) rt (Struct (before ++ f :: after))
  = (fields1 ← walkedFields (S (S fuel)) rt (Struct before);
     fields2 ← walkedFields (S fuel) rt (Struct inner);
     fields3 ← walkedFields (S (S fuel)) rt (Struct after);
     Some (fields1 ++ fields2 ++ fields3)).
Proof.
  intros He Ha Hi. unfold walkedFields at 1 2 4.
  rewrite !walkStructFields_struct, walkFields_app.
  destruct (walkFields _ rt collect before []) as [l1|]; [|done].
  cbn [mbind option_bind walkFields].
  unfold isExported in He. rewrite He, Ha. unfold deref in Hi. rewrite Hi.
  cbn [negb Kind_of Kind_eqb andb].
  rewrite (collect_shift (S fuel) rt (Struct inner) l1).
  destruct (walkedFields (S fuel) rt (Struct inner)) as [l2|]; [|done].
  cbn [fmap option_fmap option_map mbind option_bind].
  rewrite walkFields_collect_shift.
  destruct (walkFields _ rt collect after []) as [l3|]; [|done].
  simpl. by rewrite app_assoc.
Qed.

(** ** Recursion without a guard *)

Lemma walkFields_stuck {S : Type} (walk : Type_ -> S -> option S) rt
    (fn : StructField -> S -> option S) fs f s :
  f ∈ fs -> isExported f = true -> isEmbeddedStruct rt f = true ->
  (forall s', walk (deref rt (Type' f)) s' = None) ->
  walkFields walk rt fn fs s = None.
Proof.
  intros Hin He Ha Hwalk. revert s.
  induction fs as [|g fs IH]; intros s; [by apply elem_of_nil in Hin|].
  cbn [walkFields].
  apply elem_of_cons in Hin as [<-|Hin].
  - unfold isExported in He. unfold isEmbeddedStruct, deref in Ha.
    rewrite He, Ha. simpl. unfold deref in Hwalk. by rewrite Hwalk.
  - destruct (negb (isEmpty (PkgPath g))); [by apply IH|].
    destruct (Anonymous g && Kind_eqb (Kind_of _) KStruct).
    + destruct (walk _ s); simpl; [by apply IH|done].
    + destruct (fn g s); simpl; [by apply IH|done].
Qed.

(** A struct type that embeds, in an exported field, a pointer to itself:
    the walk has no fuel with which it comes back, and [Register] on that
    type, or on a pointer to it, returns nothing. *)
Theorem self_embedding_never_returns rt id fs f :
  rt id = Struct fs ->
  f ∈ fs -> isExported f = true -> Anonymous f = true -> Type' f = Ptr id ->
  forall fuel p method path,
    Register fuel rt p (specOf method path (Struct fs)) = None /\
    Register fuel rt p (specOf method path (Ptr id)) = None.
Proof.
  intros Hid Hin He Ha Ht.
  assert (forall fuel (fn : StructField -> params -> option params) s,
            walkStructFields fuel rt (Struct fs) fn s = None) as Hwalk.
  { induction fuel as [|fuel IH]; intros fn s; [done|].
    cbn [walkStructFields Kind_of Kind_eqb negb fieldsOf].
    apply (walkFields_stuck _ _ _ _ f); [done..| |].
    - unfold isEmbeddedStruct, deref. rewrite Ha, Ht. simpl. by rewrite Hid.
    - intros s'. unfold deref. rewrite Ht. simpl. rewrite Hid. apply IH. }
  intros fuel p method path. unfold Register, specOf. split.
  - rewrite lookup_insert_eq, lookup_insert_ne, lookup_insert_eq by done.
    rewrite !lookup_insert_ne, !lookup_insert_eq by done.
    cbn [asString asType Kind_of Kind_eqb negb].
    unfold compile. by rewrite Hwalk.
  - rewrite lookup_insert_eq, lookup_insert_ne, lookup_insert_eq by done.
    rewrite !lookup_insert_ne, !lookup_insert_eq by done.
    cbn [asString asType Kind_of Kind_eqb negb Elem]. rewrite Hid.
    cbn [Kind_of Kind_eqb negb]. unfold compile. by rewrite Hwalk.
Qed.

Lemma self_embedding_never_returns_witness :
  declared 0 = Struct (fieldsOf (declared 0)) /\
  forall fuel,
    Register fuel declared sampleGen
      (specOf "GET" "/nodes" (Struct (fieldsOf (declared 0)))) = None.
Proof.
  split; [reflexivity|]. intros fuel.
  apply (self_embedding_never_returns declared 0 (fieldsOf (declared 0))
           (mkStructField "T" EmptyString (Ptr 0) [] true)
           eq_refl (list_elem_of_here _ _) eq_refl eq_refl eq_refl
           fuel sampleGen "GET" "/nodes").
Defined.





(** ** Witnesses of the walk properties *)

Lemma walk_hands_over_exported_plain_fields_witness :
  walkedFields 2 embedding ListRequest = Some listRequestFields /\
  Name <$> listRequestFields = ["Filter"; "Limit"; "Actor"; "Sort"] /\
  Forall (fun f => isExported f = true /\ isEmbeddedStruct embedding f = false)
         listRequestFields.
Proof.
  assert (walkedFields 2 embedding ListRequest = Some listRequestFields)
    as H by (vm_compute; reflexivity).
  split_and!; [exact H|reflexivity|].
  exact (walk_hands_over_exported_plain_fields 2 embedding ListRequest
           listRequestFields H).
Defined.

Lemma walk_of_struct_without_embedding_witness :
  deref noTypes Page = Struct (fieldsOf Page) /\
  walkedFields 1 noTypes Page
  = Some [mkStructField "Limit" EmptyString Int [("query", "limit")] false].
Proof.
  split; [reflexivity|].
  refine (walk_of_struct_without_embedding 0 noTypes Page (fieldsOf Page)
            eq_refl _).
  repeat constructor.
Defined.

Lemma walk_flattens_embedded_struct_witness :
  deref embedding (Ptr 2) = Struct (fieldsOf Audit) /\
  walkedFields 2 embedding ListRequest
  = (fields1 ← walkedFields 2 embedding (Struct (firstn 2 (fieldsOf ListRequest)));
     fields2 ← walkedFields 1 embedding (Struct (fieldsOf Audit));
     fields3 ← walkedFields 2 embedding (Struct (skipn 3 (fieldsOf ListRequest)));
     Some (fields1 ++ fields2 ++ fields3)).
Proof.
  split; [reflexivity|].
  exact (walk_flattens_embedded_struct 0 embedding
           (firstn 2 (fieldsOf ListRequest))
           (mkStructField "Audit" EmptyString (Ptr 2) [] true)
           (skipn 3 (fieldsOf ListRequest)) (fieldsOf Audit)
           eq_refl eq_refl eq_refl).
Defined.

(** ** Termination *)

(** On a table of declared types that has a measure, [Register] returns for
    every generator and every spec map, and returns the same with any more
    fuel. *)
Theorem Register_returns_on_measured_types rt m p spec :
  measured rt m ->
  exists n r, forall fuel, n <= fuel -> Register fuel rt p spec = Some r.
Proof. intros Hm. by apply (Register_total rt m). Qed.

Lemma Register_returns_on_measured_types_witness :
  measured noTypes typeSize /\
  exists n r, forall fuel, n <= fuel ->
    Register fuel noTypes sampleGen (specOf "GET" "/users/:userId" GetUserRequest)
    = Some r.
Proof.
  split; [exact noTypes_measured|].
  exact (Register_returns_on_measured_types noTypes typeSize sampleGen
           (specOf "GET" "/users/:userId" GetUserRequest) noTypes_measured).
Defined.

(** ** The slots of the compiled request *)

Lemma fold_slots fuel rt defaults fs acc acc' :
  foldFields (registerField fuel rt defaults) fs acc = Some acc' ->
  exists vs,
    Forall2 (fun f v =>
               slotValue fuel rt f (placeholderOf defaults f) = Some v) fs vs /\
    formParams acc' = formParams acc ++ concat (zip_with formEntries fs vs) /\
    queryParams acc' = queryParams acc ++ concat (zip_with queryEntries fs vs).
Proof.
  revert acc. induction fs as [|f fs IH]; intros acc H; simpl in *.
  - injection H as <-. exists []. by rewrite !app_nil_r.
  - destruct (registerField _ _ _ f acc) as [acc1|] eqn:E; simpl in H; [|done].
    destruct (IH _ H) as (vs & HF & -> & ->).
    destruct (registerField_inv _ _ _ _ _ _ E) as (v & Hv & -> & -> & _).
    exists (v :: vs). split; [by constructor|].
    simpl. by rewrite <- !app_assoc.
Qed.

Lemma queryEntries_keys fs vs :
  length fs = length vs ->
  QueryParam_Key <$> concat (zip_with queryEntries fs vs)
  = (fun f => keyOf f "query")
      <$> List.filter (fun f => tagged f "query") fs.
Proof.
  revert vs. induction fs as [|f fs IH]; intros [|v vs] Hlen; try done.
  cbn [zip_with concat List.filter]. rewrite fmap_app, IH by (simpl in Hlen; lia).
  unfold queryEntries. by destruct (tagged f "query").
Qed.

(** The query parameters and the form fields of a compiled request follow
    the fields the walk visits, in their order: a field with a usable
    [query] tag gives one query parameter under the key of the tag, with the
    string of its slot value and its [description] tag; a field with a
    usable [form] or [formFile] tag gives a text or a file entry, the text
    entry first when it has both. *)
Theorem query_and_form_follow_the_fields
    fuel rt defaults method path typ request fields :
  compile fuel rt defaults method path typ = Some (inr request) ->
  walkedFields fuel rt typ = Some fields ->
  exists values,
    Forall2 (fun f v =>
               slotValue fuel rt f (placeholderOf defaults f) = Some v)
            fields values /\
    URL_Query (Request_URL request)
    = concat (zip_with queryEntries fields values) /\
    QueryParam_Key <$> URL_Query (Request_URL request)
    = (fun f => keyOf f "query")
        <$> List.filter (fun f => tagged f "query") fields /\
    Body_FormData (Request_Body request)
    = if existsb hasFormTag fields
      then Some (concat (zip_with formEntries fields values)) else None.
Proof.
  intros H Hfields.
  destruct (compile_inv _ _ _ _ _ _ _ H) as (fs & acc & Hfs & _ & Hfold & Hr).
  rewrite Hfields in Hfs. injection Hfs as <-.
  destruct (fold_slots _ _ _ _ _ _ Hfold) as (vs & HF & Hform & Hquery).
  simpl in Hform, Hquery. exists vs.
  pose proof (fold_formParams _ _ _ _ _ _ Hfold) as Hf.
  pose proof (fold_jsonParams _ _ _ _ _ _ Hfold) as Hj.
  simpl in Hf, Hj. rewrite map_size_empty in Hj. simpl in Hj.
  assert (URL_Query (Request_URL request)
          = concat (zip_with queryEntries fields vs)) as Hq.
  { symmetry in Hr. apply withBody_URL in Hr as [-> _].
    by rewrite buildRequest_URL. }
  split_and!; [done|done| |].
  - rewrite Hq. apply queryEntries_keys. by eapply Forall2_length.
  - unfold withBody in Hr. rewrite Hf, Hj, !negb_involutive in Hr.
    rewrite buildRequest_Header, buildRequest_Body in Hr. simpl in Hr.
    destruct (existsb hasFormTag fields).
    + injection Hr as ->. simpl. by rewrite Hform.
    + destruct (existsb hasJsonTag fields).
      * destruct (json.MarshalIndent _ _ _ _); [|done]. by injection Hr as ->.
      * injection Hr as ->. by rewrite buildRequest_Body.
Qed.

Lemma query_and_form_follow_the_fields_witness :
  compile 1 noTypes ∅ "POST" "/users/:userId/picture" UploadPictureRequest
  = Some (inr uploadPictureRequest) /\
  walkedFields 1 noTypes UploadPictureRequest
  = Some (fieldsOf UploadPictureRequest) /\
  QueryParam_Key <$> URL_Query (Request_URL uploadPictureRequest) = [] /\
  exists values,
    Body_FormData (Request_Body uploadPictureRequest)
    = Some (concat (zip_with formEntries (fieldsOf UploadPictureRequest)
                      values)).
Proof.
  assert (compile 1 noTypes ∅ "POST" "/users/:userId/picture"
            UploadPictureRequest = Some (inr uploadPictureRequest)) as H1
    by (vm_compute; reflexivity).
  assert (walkedFields 1 noTypes UploadPictureRequest
          = Some (fieldsOf UploadPictureRequest)) as H2
    by (vm_compute; reflexivity).
  destruct (query_and_form_follow_the_fields _ _ _ _ _ _ _ _ H1 H2)
    as (values & _ & _ & Hkeys & Hform).
  split_and!; [exact H1|exact H2|exact Hkeys|].
  exists values. exact Hform.
Defined.

(** ** The JSON object *)

Lemma fold_jsonParams_lookup fuel rt defaults key fs acc acc' :
  foldFields (registerField fuel rt defaults) fs acc = Some acc' ->
  jsonParams acc' !! key
  = match lastJsonField key fs with
    | Some f => jsonValue fuel rt f (placeholderOf defaults f)
    | None => jsonParams acc !! key
    end.
Proof.
  revert acc. induction fs as [|f fs IH]; intros acc H; simpl in *.
  - by injection H as <-.
  - destruct (registerField _ _ _ f acc) as [acc1|] eqn:E; simpl in H; [|done].
    rewrite (IH _ H). destruct (lastJsonField key fs); [done|].
    destruct (registerField_inv _ _ _ _ _ _ E) as (_ & _ & _ & _ & _ & Hj).
    destruct (tagged f "json"); simpl.
    + destruct Hj as (j & Hj & ->).
      destruct (String.eqb_spec (keyOf f "json") key) as [->|Hne].
      * by rewrite lookup_insert_eq.
      * by rewrite lookup_insert_ne.
    + by rewrite Hj.
Qed.

(** The JSON object the walk gathers holds, under a key, the value of the
    last visited field that is tagged [json] with that key: a later field
    overwrites an earlier one of the same key. A key of no such field is
    absent. *)
Theorem json_object_last_field_wins fuel rt defaults typ acc fields key :
  walkStructFields fuel rt typ (registerField fuel rt defaults) noParams
    = Some acc ->
  walkedFields fuel rt typ = Some fields ->
  jsonParams acc !! key
  = (f ← lastJsonField key fields;
     jsonValue fuel rt f (placeholderOf defaults f)).
Proof.
  intros Hwalk Hfields.
  rewrite (walkStructFields_fold _ _ _ _ _ _ Hfields) in Hwalk.
  rewrite (fold_jsonParams_lookup _ _ _ key _ _ _ Hwalk).
  by destruct (lastJsonField key fields).
Qed.

Lemma json_object_last_field_wins_witness :
  walkedFields 1 noTypes TwoNames = Some (fieldsOf TwoNames) /\
  exists acc,
    walkStructFields 1 noTypes TwoNames (registerField 1 noTypes ∅) noParams
    = Some acc /\
    jsonParams acc !! "name" = Some (VZero Int) /\
    jsonParams acc !! "First" = None.
Proof.
  assert (walkedFields 1 noTypes TwoNames = Some (fieldsOf TwoNames)) as H2
    by (vm_compute; reflexivity).
  split; [exact H2|].
  destruct (walkStructFields 1 noTypes TwoNames (registerField 1 noTypes ∅)
              noParams) as [acc|] eqn:H1; [|by vm_compute in H1].
  exists acc. split; [reflexivity|]. split.
  - exact (json_object_last_field_wins 1 noTypes ∅ TwoNames acc
             (fieldsOf TwoNames) "name" H1 H2).
  - exact (json_object_last_field_wins 1 noTypes ∅ TwoNames acc
             (fieldsOf TwoNames) "First" H1 H2).
Defined.

(** ** The error of the JSON encoder *)

(** [compile] returns the error of the JSON encoder exactly when no visited
    field has a usable [form] or [formFile] tag, some visited field has a
    usable [json] tag, and the JSON object that was gathered has no
    encoding. *)
Theorem marshal_error_iff fuel rt defaults method path typ err :
  compile fuel rt defaults method path typ = Some (inl err) <->
  err = fmt_Errorf "failed to marshal json body: %w" /\
  exists fields acc,
    walkedFields fuel rt typ = Some fields /\
    walkStructFields fuel rt typ (registerField fuel rt defaults) noParams
      = Some acc /\
    existsb hasFormTag fields = false /\
    existsb hasJsonTag fields = true /\
    json.MarshalIndent rt (jsonParams acc) EmptyString "  " = None.
Proof.
  split.
  - intros H. split; [by eapply compile_error|].
    destruct (compile_inv _ _ _ _ _ _ _ H) as (fs & acc & Hfs & Hw & Hfold & Hr).
    exists fs, acc.
    pose proof (fold_formParams _ _ _ _ _ _ Hfold) as Hf.
    pose proof (fold_jsonParams _ _ _ _ _ _ Hfold) as Hj.
    simpl in Hf, Hj. rewrite map_size_empty in Hj. simpl in Hj.
    unfold withBody in Hr. rewrite Hf, Hj, !negb_involutive in Hr.
    destruct (existsb hasFormTag fs); [done|].
    destruct (existsb hasJsonTag fs); [|done].
    by destruct (json.MarshalIndent _ _ _ _).
  - intros (-> & fs & acc & Hfs & Hw & Hform & Hjson & Henc).
    unfold compile. rewrite Hw. simpl.
    rewrite (walkStructFields_fold _ _ _ _ _ _ Hfs) in Hw.
    pose proof (fold_formParams _ _ _ _ _ _ Hw) as Hf.
    pose proof (fold_jsonParams _ _ _ _ _ _ Hw) as Hj.
    simpl in Hf, Hj. rewrite map_size_empty in Hj. simpl in Hj.
    unfold withBody. by rewrite Hf, Hj, Hform, Hjson, Henc.
Qed.

(** A visited field with a usable [form] or [formFile] tag is enough for the
    request to compile once the walk has come back: the JSON object is not
    encoded, so a JSON field without an encoding does no harm. *)
Theorem form_field_spares_the_encoder
    fuel rt defaults method path typ fields acc :
  walkedFields fuel rt typ = Some fields ->
  walkStructFields fuel rt typ (registerField fuel rt defaults) noParams
    = Some acc ->
  existsb hasFormTag fields = true ->
  exists request,
    compile fuel rt defaults method path typ = Some (inr request) /\
    Body_Mode (Request_Body request) = "formdata" /\
    Body_Raw (Request_Body request) = EmptyString.
Proof.
  intros Hfs Hw Hform. unfold compile. rewrite Hw. simpl.
  rewrite (walkStructFields_fold _ _ _ _ _ _ Hfs) in Hw.
  pose proof (fold_formParams _ _ _ _ _ _ Hw) as Hf. simpl in Hf.
  unfold withBody. rewrite Hf, Hform. simpl.
  eexists. split; [done|]. by rewrite buildRequest_Body.
Qed.

Lemma form_field_spares_the_encoder_witness :
  walkedFields 1 noTypes FormAndChannel = Some (fieldsOf FormAndChannel) /\
  (exists acc,
     walkStructFields 1 noTypes FormAndChannel (registerField 1 noTypes ∅)
       noParams = Some acc /\
     json.MarshalIndent noTypes (jsonParams acc) EmptyString "  " = None) /\
  exists request,
    compile 1 noTypes ∅ "POST" "/events" FormAndChannel
    = Some (inr request) /\
    Body_Mode (Request_Body request) = "formdata".
Proof.
  assert (walkedFields 1 noTypes FormAndChannel
          = Some (fieldsOf FormAndChannel)) as H1 by (vm_compute; reflexivity).
  destruct (walkStructFields 1 noTypes FormAndChannel
              (registerField 1 noTypes ∅) noParams) as [acc|] eqn:H2;
    [|by vm_compute in H2].
  split_and!; [exact H1| |].
  - exists acc. split; [reflexivity|].
    vm_compute in H2. injection H2 as <-. by vm_compute.
  - destruct (form_field_spares_the_encoder 1 noTypes ∅ "POST" "/events"
                FormAndChannel _ acc H1 H2 eq_refl)
      as (request & Hc & Hmode & _).
    exists request. split; [exact Hc|exact Hmode].
Defined.

(** ** Placeholders in the JSON object *)

(** A field with a usable [json] tag and a placeholder, from its [example]
    tag or from a caller default: the callback needs no fuel, and the JSON
    object holds the placeholder as a Go string whatever the type of the
    field is, so the encoder writes a JSON string. *)
Theorem placeholder_is_a_json_string fuel rt defaults field acc :
  tagged field "json" = true ->
  unset (placeholderOf defaults field) = false ->
  exists acc',
    registerField fuel rt defaults field acc = Some acc' /\
    jsonParams acc'
    = <[keyOf field "json" := VString (placeholderOf defaults field)]>
        (jsonParams acc) /\
    json.Marshal rt (VString (placeholderOf defaults field))
    = Some (json.quote (placeholderOf defaults field)).
Proof.
  intros Ht Hp. unfold tagged in Ht.
  unfold registerField, jsonValue, slotValue. rewrite Ht, Hp. simpl.
  eexists. by split_and!.
Qed.

Lemma placeholder_is_a_json_string_witness :
  let IsAdmin := mkStructField "IsAdmin" EmptyString Bool
                   [("json", "is_admin"); ("example", "false")] false in
  exists acc',
    registerField 0 noTypes ∅ IsAdmin noParams = Some acc' /\
    jsonParams acc' !! "is_admin" = Some (VString "false") /\
    json.Marshal noTypes (VString "false") = Some (json.quote "false").
Proof.
  cbv zeta.
  destruct (placeholder_is_a_json_string 0 noTypes ∅
              (mkStructField "IsAdmin" EmptyString Bool
                 [("json", "is_admin"); ("example", "false")] false)
              noParams eq_refl eq_refl) as (acc' & H1 & H2 & H3).
  exists acc'. split_and!; [exact H1| |exact H3].
  rewrite H2. reflexivity.
Defined.

(** ** The path and the raw URL *)

Lemma Join_cons_char c h t sep :
  strings.Join (String c h :: t) sep = String c (strings.Join (h :: t) sep).
Proof. unfold strings.Join. by destruct t. Qed.

(** Joining what was split gives the string back. *)
Lemma Join_Split s sep :
  strings.Join (strings.Split s sep) (String sep EmptyString) = s.
Proof.
  induction s as [|c r IH]; [done|]. cbn [strings.Split].
  destruct (Ascii.eqb_spec c sep) as [->|Hne].
  - pose proof (Split_nonempty r sep) as Hr.
    destruct (strings.Split r sep) as [|h t]; [done|].
    change (strings.Join (EmptyString :: h :: t) (String sep EmptyString))
      with (String sep (strings.Join (h :: t) (String sep EmptyString))).
    by rewrite IH.
  - pose proof (Split_nonempty r sep) as Hr.
    destruct (strings.Split r sep) as [|h t]; [done|].
    by rewrite Join_cons_char, IH.
Qed.

Lemma TrimRight_app_cut s cut :
  strings.TrimRight (s +:+ String cut EmptyString) cut
  = strings.TrimRight s cut.
Proof.
  induction s as [|c r IH]; simpl.
  - by rewrite Ascii.eqb_refl.
  - by rewrite IH.
Qed.

Lemma TrimLeft_app_cut s cut :
  strings.TrimLeft (s +:+ String cut EmptyString) cut
  = if isEmpty (strings.TrimLeft s cut) then EmptyString
    else strings.TrimLeft s cut +:+ String cut EmptyString.
Proof.
  induction s as [|c r IH]; simpl.
  - by rewrite Ascii.eqb_refl.
  - by destruct (Ascii.eqb c cut).
Qed.

Lemma Trim_leading s cut :
  strings.Trim (String cut s) cut = strings.Trim s cut.
Proof. unfold strings.Trim. simpl. by rewrite Ascii.eqb_refl. Qed.

Lemma Trim_trailing s cut :
  strings.Trim (s +:+ String cut EmptyString) cut = strings.Trim s cut.
Proof.
  unfold strings.Trim. rewrite TrimLeft_app_cut.
  destruct (strings.TrimLeft s cut) as [|a s0]; [done|].
  cbn [isEmpty]. apply TrimRight_app_cut.
Qed.

(** The raw URL of a compiled request is the base-URL placeholder, a slash,
    and the path without its leading and trailing slashes; slashes inside
    the path, doubled ones too, are kept. The path segments joined by
    slashes give that trimmed path back. *)
Theorem raw_url_is_the_trimmed_path
    fuel rt defaults method path typ request :
  compile fuel rt defaults method path typ = Some (inr request) ->
  URL_Raw (Request_URL request) = "{{base_url}}/" +:+ strings.Trim path "/" /\
  strings.Join (URL_Path (Request_URL request)) "/" = strings.Trim path "/" /\
  URL_Host (Request_URL request) = ["{{base_url}}"] /\
  Request_Method request = method.
Proof.
  intros H.
  destruct (compile_inv _ _ _ _ _ _ _ H) as (fs & acc & _ & _ & _ & Hr).
  symmetry in Hr. apply withBody_URL in Hr as [-> ->].
  rewrite buildRequest_URL. cbv zeta. cbn [URL_Raw URL_Path URL_Host].
  rewrite (Join_Split (strings.Trim path "/") "/").
  split_and!; try done.
  unfold buildRequest. by destruct (processSegments _ _).
Qed.

Lemma raw_url_is_the_trimmed_path_witness :
  compile 1 noTypes ∅ "GET" "/orgs/:orgId/users/:userId" GetUserRequest
  = Some (inr unmatchedRequest) /\
  URL_Raw (Request_URL unmatchedRequest)
  = "{{base_url}}/orgs/:orgId/users/:userId".
Proof.
  assert (compile 1 noTypes ∅ "GET" "/orgs/:orgId/users/:userId"
            GetUserRequest = Some (inr unmatchedRequest)) as H
    by (vm_compute; reflexivity).
  split; [exact H|].
  exact (proj1 (raw_url_is_the_trimmed_path _ _ _ _ _ _ _ H)).
Defined.

Lemma compile_path fuel rt defaults method path path' typ :
  strings.Trim path "/" = strings.Trim path' "/" ->
  compile fuel rt defaults method path typ
  = compile fuel rt defaults method path' typ.
Proof.
  intros E. unfold compile.
  destruct (walkStructFields _ _ _ _ _) as [acc|]; [|done]. simpl.
  unfold buildRequest. by rewrite E.
Qed.

(** A slash more at the front or at the end of the path changes nothing in
    what [Register] returns and leaves: the same request under the same
    folders. *)
Theorem Register_ignores_outer_slashes fuel rt p spec path :
  Register fuel rt p (<["path" := any_string ("/" +:+ path)]> spec)
  = Register fuel rt p (<["path" := any_string path]> spec) /\
  Register fuel rt p (<["path" := any_string (path +:+ "/")]> spec)
  = Register fuel rt p (<["path" := any_string path]> spec).
Proof.
  unfold Register.
  rewrite !lookup_insert_eq, !lookup_insert_ne by done.
  cbn [asString].
  destruct (asString (spec !! "method")) as [method|]; [|done].
  destruct (asType (spec !! "inputType")) as [inputType|]; [|done].
  destruct (negb (Kind_eqb (Kind_of _) KStruct)); [done|].
  rewrite (compile_path _ _ _ _ ("/" +:+ path) path)
    by apply (Trim_leading path "/"%char).
  rewrite (compile_path _ _ _ _ (path +:+ "/") path)
    by apply (Trim_trailing path "/"%char).
  done.
Qed.

(** ** Counting the tree *)

Lemma list_sum_alter {A : Type} (f : A -> nat) (g : A -> A) i l x :
  l !! i = Some x ->
  list_sum (List.map f (alter g i l)) + f x
  = list_sum (List.map f l) + f (g x).
Proof.
  revert i. induction l as [|y l IH]; intros [|i] H; try done.
  - injection H as ->. simpl. lia.
  - simpl in H. specialize (IH i H).
    change (alter g (S i) (y :: l)) with (y :: alter g i l).
    change (list_sum (List.map f (y :: alter g i l)))
      with (f y + list_sum (List.map f (alter g i l))).
    change (list_sum (List.map f (y :: l)))
      with (f y + list_sum (List.map f l)).
    lia.
Qed.

Lemma list_sum_map_app {A : Type} (f : A -> nat) l1 l2 :
  list_sum (List.map f (l1 ++ l2))
  = list_sum (List.map f l1) + list_sum (List.map f l2).
Proof. by rewrite List.map_app, list_sum_app. Qed.

Lemma attach_requestCount folderSegments item current :
  requestCount (attach folderSegments item current)
  = requestCount current + requestsBelow item.
Proof.
  revert current. unfold requestCount.
  induction folderSegments as [|segment rest IH]; intros current;
    cbn [attach].
  - rewrite list_sum_map_app. simpl. lia.
  - destruct (findFolder segment current) as [i|] eqn:Efind.
    + destruct (proj1 (findFolder_Some _ _ _) Efind) as (folder & Hi & _ & _).
      pose proof (list_sum_alter requestsBelow
                    (fun foundFolder =>
                       setChildren (attach rest item (Items_Items foundFolder))
                         foundFolder) i current folder Hi) as Hsum.
      cbn beta in Hsum. destruct folder as [name children request].
      cbn [setChildren Items_Name Items_Items Items_Request requestsBelow]
        in Hsum.
      rewrite IH in Hsum. lia.
    + rewrite list_sum_map_app. simpl. rewrite IH. simpl. lia.
Qed.

Lemma attach_folderCount folderSegments item current :
  folderCount current + foldersBelow item
  <= folderCount (attach folderSegments item current)
  <= folderCount current + foldersBelow item + length folderSegments /\
  (is_Some (folderAt folderSegments current) ->
   folderCount (attach folderSegments item current)
   = folderCount current + foldersBelow item).
Proof.
  revert current. unfold folderCount.
  induction folderSegments as [|segment rest IH]; intros current;
    cbn [attach folderAt].
  - rewrite list_sum_map_app. simpl. lia.
  - destruct (findFolder segment current) as [i|] eqn:Efind.
    + destruct (proj1 (findFolder_Some _ _ _) Efind) as (folder & Hi & _ & _).
      pose proof (list_sum_alter foldersBelow
                    (fun foundFolder =>
                       setChildren (attach rest item (Items_Items foundFolder))
                         foundFolder) i current folder Hi) as Hsum.
      cbn beta in Hsum. cbn [mbind option_bind]. rewrite Hi.
      cbn [mbind option_bind].
      destruct folder as [name children request].
      cbn [setChildren Items_Name Items_Items Items_Request foldersBelow]
        in *.
      destruct (IH children) as [Hbounds Hexact]. split; [simpl; lia|].
      intros Hsome. specialize (Hexact Hsome). lia.
    + rewrite list_sum_map_app. simpl.
      destruct (IH []) as [Hbounds _]. simpl in Hbounds.
      split; [lia|]. by intros [? ?].
Qed.

(** A call of [Register] that returns no error adds one request to the
    tree, and a call that returns an error adds none; no call takes a
    request or a folder away. *)
Theorem Register_adds_one_request fuel rt p spec r :
  Register fuel rt p spec = Some r ->
  requestCount (Collection_Items (collection r.2))
  = requestCount (Collection_Items (collection p))
    + (match r.1 with None => 1 | Some _ => 0 end) /\
  folderCount (Collection_Items (collection p))
  <= folderCount (Collection_Items (collection r.2)).
Proof.
  intros H. destruct r as [[err|] p'].
  - rewrite (Register_error _ _ _ _ _ _ H). simpl. lia.
  - destruct (proj1 (Register_success _ _ _ _ _) H)
      as (method & path & inputType & request & _ & _ & _ & _ & _ & ->).
    cbn [fst snd setItems collection Collection_Items]. unfold attachRequest.
    rewrite attach_requestCount. split; [done|].
    pose proof (attach_folderCount
                  (removelast (URL_Path (Request_URL request)))
                  (CreateItem (List.last (URL_Path (Request_URL request))
                                 EmptyString) request)
                  (Collection_Items (collection p))) as [Hb _].
    simpl in Hb. lia.
Qed.

Lemma Register_adds_one_request_witness :
  exists r,
    Register 1 noTypes afterSampleCalls
      (specOf "GET" "/users/:userId" GetUserRequest) = Some r /\
    requestCount (Collection_Items (collection afterSampleCalls)) = 4 /\
    requestCount (Collection_Items (collection r.2)) = 5.
Proof.
  destruct (Register 1 noTypes afterSampleCalls
              (specOf "GET" "/users/:userId" GetUserRequest)) as [r|] eqn:H;
    [|by vm_compute in H].
  exists r. split_and!; [reflexivity|reflexivity|].
  destruct (Register_adds_one_request _ _ _ _ _ H) as [Hcount _].
  rewrite Hcount. vm_compute in H. by injection H as <-.
Defined.

(** A call of [Register] that returns no error adds at most one folder for
    each segment of the group path. When the group path is there already it
    adds none, and after the call the group path is there: later requests
    under the same group path add no folder. *)
Theorem Register_folder_growth fuel rt p spec p' :
  Register fuel rt p spec = Some (None, p') ->
  exists request,
    compile fuel rt (placeholderDefaults p)
      (default EmptyString (asString (spec !! "method")))
      (default EmptyString (asString (spec !! "path")))
      (deref rt (default Int (asType (spec !! "inputType"))))
    = Some (inr request) /\
    let group := removelast (URL_Path (Request_URL request)) in
    let before := Collection_Items (collection p) in
    let after := Collection_Items (collection p') in
    folderCount after <= folderCount before + length group /\
    (is_Some (folderAt group before) ->
     folderCount after = folderCount before) /\
    is_Some (folderAt group after).
Proof.
  intros H.
  destruct (proj1 (Register_success _ _ _ _ _) H)
    as (method & path & inputType & request & Hm & Hp & Ht & _ & Hc & ->).
  exists request. rewrite Hm, Hp, Ht. cbn [asString asType default].
  split; [exact Hc|]. cbv zeta.
  cbn [setItems collection Collection_Items]. unfold attachRequest.
  destruct (attach_folderCount (removelast (URL_Path (Request_URL request)))
              (CreateItem (List.last (URL_Path (Request_URL request))
                             EmptyString) request)
              (Collection_Items (collection p))) as [Hb Hexact].
  simpl in Hb, Hexact. split_and!.
  - lia.
  - intros Hsome. rewrite (Hexact Hsome). lia.
  - rewrite folderAt_attach. by eexists.
Qed.

Lemma Register_folder_growth_witness :
  exists p',
    Register 1 noTypes afterSampleCalls
      (specOf "POST" "/users/:userId/picture" UploadPictureRequest)
    = Some (None, p') /\
    folderCount (Collection_Items (collection afterSampleCalls)) = 2 /\
    folderCount (Collection_Items (collection p')) = 2.
Proof.
  destruct (Register 1 noTypes afterSampleCalls
              (specOf "POST" "/users/:userId/picture" UploadPictureRequest))
    as [[[err|] p']|] eqn:H; [by vm_compute in H| |by vm_compute in H].
  exists p'. split_and!; [reflexivity|reflexivity|].
  destruct (Register_folder_growth _ _ _ _ _ H)
    as (request & Hc & _ & Hexact & _).
  vm_compute in Hc. injection Hc as <-.
  rewrite Hexact; [reflexivity|]. vm_compute. by eexists.
Defined.

(** ** Requests are leaves *)

Lemma requestsAreLeaves_spec items :
  requestsAreLeaves items = true <->
  Forall (fun item => leafBelow item = true) items.
Proof.
  unfold requestsAreLeaves. induction items as [|x items IH]; simpl.
  - split; [constructor|done].
  - rewrite andb_true_iff, Forall_cons, IH. done.
Qed.

Lemma leafBelow_folder name children :
  leafBelow (mkItems name children None) = requestsAreLeaves children.
Proof. done. Qed.

Lemma attach_leaves folderSegments item :
  leafBelow item = true ->
  forall current,
    requestsAreLeaves current = true ->
    requestsAreLeaves (attach folderSegments item current) = true.
Proof.
  intros Hitem.
  induction folderSegments as [|segment rest IH]; intros current Hcur;
    apply requestsAreLeaves_spec in Hcur; apply requestsAreLeaves_spec;
    cbn [attach].
  - apply Forall_app. split; [done|]. by constructor.
  - destruct (findFolder segment current) as [i|] eqn:Efind.
    + apply Forall_alter; [done|]. intros folder Hi Hfolder.
      destruct (proj1 (findFolder_Some _ _ _) Efind) as (folder' & Hi' & Hm & _).
      rewrite Hi in Hi'. injection Hi' as <-.
      apply isFolder_true in Hm as [_ Hgroup].
      destruct folder as [name children [request|]]; [done|].
      cbn [setChildren Items_Name Items_Items Items_Request].
      rewrite leafBelow_folder in *. by apply IH.
    + apply Forall_app. split; [done|]. constructor; [|done].
      rewrite leafBelow_folder. by apply IH.
Qed.

(** Every run keeps the requests at the leaves: a node that carries a
    request never gets children. *)
Theorem run_requests_are_leaves fuel rt calls p p' :
  requestsAreLeaves (Collection_Items (collection p)) = true ->
  run fuel rt p calls = Some p' ->
  requestsAreLeaves (Collection_Items (collection p')) = true.
Proof.
  revert p. induction calls as [|c calls IH]; intros p Hinv H; simpl in H.
  - by injection H as <-.
  - destruct c as [key value|key value|spec].
    + by apply (IH (AddVariable p key value)).
    + by apply (IH (AddPlaceholder p key value)).
    + destruct (Register fuel rt p spec) as [[[err|] p1]|] eqn:Er;
        simpl in H; [| |done].
      * rewrite (Register_error _ _ _ _ _ _ Er) in H. by apply (IH p).
      * apply (IH p1); [|done].
        destruct (proj1 (Register_success _ _ _ _ _) Er)
          as (method & path & inputType & request & _ & _ & _ & _ & _ & ->).
        simpl. unfold attachRequest. by apply attach_leaves.
Qed.

Lemma run_requests_are_leaves_witness :
  requestsAreLeaves (Collection_Items (collection sampleGen)) = true /\
  run 1 noTypes sampleGen sampleCalls = Some afterSampleCalls /\
  requestsAreLeaves (Collection_Items (collection afterSampleCalls)) = true.
Proof.
  assert (requestsAreLeaves (Collection_Items (collection sampleGen)) = true)
    as H0 by reflexivity.
  assert (run 1 noTypes sampleGen sampleCalls = Some afterSampleCalls)
    as H1 by (vm_compute; reflexivity).
  split_and!; [exact H0|exact H1|].
  exact (run_requests_are_leaves 1 noTypes sampleCalls sampleGen
           afterSampleCalls H0 H1).
Defined.

(** ** What a run leaves outside the tree *)

Lemma Register_keeps_the_rest fuel rt p spec r :
  Register fuel rt p spec = Some r ->
  placeholderDefaults r.2 = placeholderDefaults p /\
  Collection_Variables (collection r.2) = Collection_Variables (collection p) /\
  Collection_Auth (collection r.2) = Collection_Auth (collection p) /\
  Info_Name (collection r.2) = Info_Name (collection p) /\
  Info_Description (collection r.2) = Info_Description (collection p).
Proof.
  intros H. destruct r as [[err|] p'].
  - by rewrite (Register_error _ _ _ _ _ _ H).
  - by destruct (proj1 (Register_success _ _ _ _ _) H)
      as (method & path & inputType & request & _ & _ & _ & _ & _ & ->).
Qed.

(** After a run the variables of the collection are those it began with
    and then one for each call of [AddVariable], in the order of the calls;
    the defaults are those it began with, overwritten by the calls of
    [AddPlaceholder] in their order. [Register] touches neither, nor the
    name, the description and the authentication of the collection. *)
Theorem run_variables_and_defaults fuel rt calls p p' :
  run fuel rt p calls = Some p' ->
  Collection_Variables (collection p')
  = Collection_Variables (collection p) ++ addedVariables calls /\
  placeholderDefaults p' = addedDefaults calls (placeholderDefaults p) /\
  Collection_Auth (collection p') = Collection_Auth (collection p) /\
  Info_Name (collection p') = Info_Name (collection p) /\
  Info_Description (collection p') = Info_Description (collection p).
Proof.
  revert p. induction calls as [|c calls IH]; intros p H; simpl in H.
  - injection H as <-. simpl. by rewrite app_nil_r.
  - destruct c as [key value|key value|spec].
    + destruct (IH _ H) as (-> & -> & -> & -> & ->).
      simpl. by rewrite <- app_assoc.
    + by destruct (IH _ H) as (-> & -> & -> & -> & ->).
    + destruct (Register fuel rt p spec) as [r|] eqn:Er; simpl in H; [|done].
      destruct (IH _ H) as (-> & -> & -> & -> & ->).
      by destruct (Register_keeps_the_rest _ _ _ _ _ Er)
        as (-> & -> & -> & -> & ->).
Qed.

Lemma run_variables_and_defaults_witness :
  run 1 noTypes sampleGen sampleCalls = Some afterSampleCalls /\
  Collection_Variables (collection afterSampleCalls)
  = [mkVariable "base_url" "string" "http://localhost:8080" EmptyString] /\
  placeholderDefaults afterSampleCalls !! "tenant_id"
  = Some "default-tenant-001".
Proof.
  assert (run 1 noTypes sampleGen sampleCalls = Some afterSampleCalls)
    as H1 by (vm_compute; reflexivity).
  destruct (run_variables_and_defaults 1 noTypes sampleCalls sampleGen
              afterSampleCalls H1) as (Hv & Hd & _).
  split_and!; [exact H1|exact Hv|]. rewrite Hd. reflexivity.
Defined.

(** [AddVariable] and [Register] commute: the variable may be added before
    or after the call, the error and the generator are the same. *)
Theorem AddVariable_commutes_with_Register fuel rt p spec key value :
  Register fuel rt (AddVariable p key value) spec
  = (fun r => (r.1, AddVariable r.2 key value)) <$> Register fuel rt p spec.
Proof.
  unfold Register.
  destruct (asString (spec !! "method")); [|done].
  destruct (asString (spec !! "path")); [|done].
  destruct (asType (spec !! "inputType")); [|done].
  destruct (negb (Kind_eqb (Kind_of _) KStruct)); [done|].
  cbn [AddVariable placeholderDefaults].
  destruct (compile _ _ _ _ _ _) as [[err|request]|]; done.
Qed.

(** ** The shape of a zero value *)



(** ** Defaults written and read back *)

Lemma placeholderOf_only_default defaults field key value :
  unset (Get (Tag field) "example") = true ->
  key ∈ probeKeys field ->
  (forall other, other ∈ probeKeys field -> other <> key ->
                 defaults !! other = None) ->
  defaults !! key = Some value ->
  placeholderOf defaults field = value.
Proof.
  intros Hex Hin Hothers Hkey. unfold placeholderOf. rewrite Hex.
  assert (forall k, k ∈ probeKeys field ->
            defaults !! k = Some value \/ defaults !! k = None) as Hall.
  { intros k Hk. destruct (decide (k = key)) as [->|Hne]; [by left|].
    right. by apply Hothers. }
  unfold probeKeys in Hall, Hin.
  destruct (Hall (keyOf field "json")) as [->|H0];
    [by apply (list_elem_of_lookup_2 _ 0)|done|rewrite H0].
  destruct (Hall (keyOf field "form")) as [->|H1];
    [by apply (list_elem_of_lookup_2 _ 1)|done|rewrite H1].
  destruct (Hall (keyOf field "formFile")) as [->|H2];
    [by apply (list_elem_of_lookup_2 _ 2)|done|rewrite H2].
  destruct (Hall (keyOf field "query")) as [->|H3];
    [by apply (list_elem_of_lookup_2 _ 3)|done|rewrite H3].
  destruct (Hall (keyOf field "param")) as [->|H4];
    [by apply (list_elem_of_lookup_2 _ 4)|done|rewrite H4].
  exfalso.
  assert (defaults !! key = None) as Hnone; [|congruence].
  repeat (apply elem_of_cons in Hin as [->|Hin]; [done|]).
  by apply not_elem_of_nil in Hin.
Qed.

(** A default written with [AddPlaceholder] under one of the keys of a
    field is what the field gets, when the field has no example and no
    other of its keys has a default; a second write under the same key
    replaces the first. *)
Theorem AddPlaceholder_then_lookup p field key first second :
  unset (Get (Tag field) "example") = true ->
  key ∈ probeKeys field ->
  (forall other, other ∈ probeKeys field -> other <> key ->
                 placeholderDefaults p !! other = None) ->
  placeholderOf (placeholderDefaults (AddPlaceholder p key first)) field
  = first /\
  placeholderOf
    (placeholderDefaults
       (AddPlaceholder (AddPlaceholder p key first) key second)) field
  = second.
Proof.
  intros Hex Hin Hothers. split.
  - apply placeholderOf_only_default with key; [done|done| |].
    + intros other Ho Hne. cbn [AddPlaceholder placeholderDefaults].
      rewrite lookup_insert_ne by done. by apply Hothers.
    + cbn [AddPlaceholder placeholderDefaults]. by rewrite lookup_insert_eq.
  - apply placeholderOf_only_default with key; [done|done| |].
    + intros other Ho Hne. cbn [AddPlaceholder placeholderDefaults].
      rewrite !lookup_insert_ne by done. by apply Hothers.
    + cbn [AddPlaceholder placeholderDefaults]. by rewrite lookup_insert_eq.
Qed.

(** A default written under a key that is none of the keys of a field, or
    for a field that has an example, changes nothing for that field. *)
Theorem AddPlaceholder_elsewhere p field key value :
  key ∉ probeKeys field \/ unset (Get (Tag field) "example") = false ->
  placeholderOf (placeholderDefaults (AddPlaceholder p key value)) field
  = placeholderOf (placeholderDefaults p) field.
Proof.
  intros [Hnot|Hex]; unfold placeholderOf.
  - cbn [AddPlaceholder placeholderDefaults].
    unfold probeKeys in Hnot.
    repeat (apply not_elem_of_cons in Hnot as [? Hnot]).
    by rewrite !lookup_insert_ne by done.
  - by rewrite Hex.
Qed.

Lemma AddPlaceholder_then_lookup_witness :
  placeholderOf
    (placeholderDefaults (AddPlaceholder sampleGen "tenant_id" "t-1")) TenantID
  = "t-1" /\
  placeholderOf
    (placeholderDefaults
       (AddPlaceholder (AddPlaceholder sampleGen "tenant_id" "t-1")
          "tenant_id" "t-2")) TenantID
  = "t-2".
Proof.
  apply (AddPlaceholder_then_lookup sampleGen TenantID "tenant_id" "t-1" "t-2").
  - reflexivity.
  - apply (list_elem_of_lookup_2 _ 3). reflexivity.
  - intros other _ _. apply lookup_empty.
Defined.

Lemma AddPlaceholder_elsewhere_witness :
  placeholderOf
    (placeholderDefaults (AddPlaceholder sampleGen "tenant" "t-1")) TenantID
  = placeholderOf (placeholderDefaults sampleGen) TenantID.
Proof.
  apply (AddPlaceholder_elsewhere sampleGen TenantID "tenant" "t-1").
  left. unfold probeKeys. rewrite !not_elem_of_cons.
  split_and!; try done. apply not_elem_of_nil.
Defined.
